(** * wagtail_review/models.py: the review data model and its methods

    A shallow embedding of [wagtail_review.models]: the five persisted
    entities (Review, Reviewer, Annotation, AnnotationRange, Response), the
    token generator, the notification dispatch and the reporting queries,
    followed by the properties the specification states about them.

    Conventions.
    - A model instance is a record; a foreign key holds the related
      instance, as the ORM's instance graph does, and is compared by
      primary key, as the ORM's lookups do.
    - A manager or queryset is the list of its rows; [filter], [exclude],
      [distinct], [order_by] and the aggregates are list functions.
    - Methods with effects (the random source, the mail transport, the
      table a [save] writes) run in the monad [M] over [World]; a Python
      exception is the [Raise] outcome, and the effects that happened
      before it stay in the world.
    - What the host framework provides (templates, URL routing, the page
      permission policy, the display name of a user, the OS entropy) is a
      field of the class [Host]. *)

From stdpp Require Import base strings list gmap sorting.
From Stdlib Require Import ZArith Ascii.

Set Warnings "-register-all".

Local Open Scope Z_scope.
Local Open Scope string_scope.

(** ** Python values *)

(** Truth value of a [str]: only the empty string is falsy. *)
Definition truthy (s : string) : bool :=
  match s with
  | EmptyString => false
  | String _ _ => true
  end.

(** [str.isspace] on the ASCII range: tab, LF, VT, FF, CR, the four
    separators FS, GS, RS, US and the space. *)
Definition isspace (c : ascii) : bool :=
  let n := nat_of_ascii c in
  ((9 <=? n)%nat && (n <=? 13)%nat) || ((28 <=? n)%nat && (n <=? 32)%nat).

Fixpoint lstrip (s : string) : string :=
  match s with
  | EmptyString => EmptyString
  | String c s' => if isspace c then lstrip s' else s
  end.

Fixpoint rstrip (s : string) : string :=
  match s with
  | EmptyString => EmptyString
  | String c s' =>
      match rstrip s' with
      | EmptyString => if isspace c then EmptyString else String c EmptyString
      | t => String c t
      end
  end.

(** [s.strip()] *)
Definition strip (s : string) : string := rstrip (lstrip s).

(** [''.join(cs)] for a sequence of one-character strings. *)
Definition join_chars (cs : list ascii) : string := String.string_of_list_ascii cs.

Inductive exn : Type :=
  | ValidationError (msg : string)
  | AttributeError (msg : string)
  | IndexError (msg : string).

Inductive result (A : Type) : Type :=
  | Return (a : A)
  | Raise (e : exn).
Arguments Return {A} a.
Arguments Raise {A} e.

(** JSON-serialisable Python data; a [dict] keeps its insertion order. *)
Inductive json : Type :=
  | JNull
  | JNum (n : Z)
  | JStr (s : string)
  | JArr (items : list json)
  | JObj (members : list (string * json)).

Definition json_keys (j : json) : option (list string) :=
  match j with
  | JObj members => Some (members.*1)
  | _ => None
  end.

Fixpoint assoc_get (k : string) (members : list (string * json)) : option json :=
  match members with
  | [] => None
  | (k', v) :: rest => if String.eqb k k' then Some v else assoc_get k rest
  end.

Definition json_get (k : string) (j : json) : option json :=
  match j with
  | JObj members => assoc_get k members
  | _ => None
  end.

Definition json_of_pk (pk : option Z) : json :=
  match pk with
  | Some n => JNum n
  | None => JNull
  end.

(** ** The persisted entities *)

(** [settings.AUTH_USER_MODEL]: the primary key and the email column are
    what this module reads. *)
Record User : Type := {
  user_pk : Z;
  user_email : string;
}.

(** The host's page, and the revision row a review points at
    ([wagtailcore.Revision]); [object_id] is the key of the revised page,
    matched against [Page.pk] by the queries below. *)
Record Page : Type := {
  page_pk : Z;
  page_title : string;
}.

Record Revision : Type := {
  revision_pk : Z;
  object_id : Z;
}.

(** Timestamps are points on the integer time line. *)
Definition datetime := Z.

Record Review : Type := {
  review_pk : Z;
  page_revision : Revision;
  status : string;
  submitter : User;
  review_created_at : datetime;
}.

Record Reviewer : Type := {
  reviewer_pk : option Z;          (* None until the first save *)
  reviewer_review : Review;
  reviewer_user : option User;     (* null=True *)
  reviewer_email : string;         (* blank=True *)
  response_token : string;
  view_token : string;
}.

Record Annotation : Type := {
  annotation_pk : Z;
  annotation_reviewer : Reviewer;
  quote : string;
  text : string;
  annotation_created_at : datetime;
  updated_at : datetime;
}.

Record AnnotationRange : Type := {
  range_annotation : Annotation;
  range_start : string;
  start_offset : Z;
  range_end : string;
  end_offset : Z;
}.

Record Response : Type := {
  response_pk : Z;
  response_reviewer : Reviewer;
  response_result : string;
  comment : string;
  response_created_at : datetime;
}.

Definition REVIEW_STATUS_CHOICES : list (string * string) :=
  [("open", "Open"); ("closed", "Closed")].

Definition RESULT_CHOICES : list (string * string) :=
  [("approve", "Approved"); ("comment", "Comment")].

(** The tables behind the managers [Review.objects], [Reviewer.objects],
    [AnnotationRange.objects] and [Response.objects]. *)
Record Database : Type := {
  reviews : list Review;
  reviewers : list Reviewer;
  annotation_ranges : list AnnotationRange;
  responses : list Response;
}.

Record Mail : Type := {
  mail_subject : string;
  mail_body : string;
  mail_recipients : list string;
}.

(** What the effectful methods read and write: the tables, the position in
    the entropy stream, and the messages handed to the mail transport. *)
Record World : Type := {
  db : Database;
  entropy_cursor : nat;
  outbox : list Mail;
}.

(** Values a template context binds. *)
Inductive ctxval : Type :=
  | CStr (s : string)
  | CUser (u : option User)
  | CReview (r : Review)
  | CPage (p : Page)
  | CReviewer (r : Reviewer)
  | CResponse (r : Response).

Inductive urlarg : Type :=
  | UPk (pk : option Z)
  | UStr (s : string).

(** ** The host framework *)

Class Host : Type := {
  (** [wagtail_review.text.user_display_name] *)
  user_display_name : User -> string;
  (** [django.template.loader.render_to_string] *)
  render_to_string : string -> list (string * ctxval) -> string;
  (** [django.urls.reverse] *)
  reverse : string -> list urlarg -> string;
  WAGTAILADMIN_BASE_URL : string;
  (** [Revision.as_object] *)
  as_object : Revision -> Page;
  (** [datetime.isoformat] *)
  isoformat : datetime -> string;
  (** The pages the user has the change permission for; both branches on
      [WAGTAIL_VERSION] ask the host for this queryset. *)
  editable_pages : User -> list Page;
  (** The operating system's entropy as [random.SystemRandom] consumes it:
      [randbelow i n] is the outcome of the [i]-th draw of an integer
      below [n]. *)
  randbelow : nat -> nat -> nat;
  randbelow_lt : forall i n, (0 < n)%nat -> (randbelow i n < n)%nat;
}.

(** ** The effect monad *)

Definition M (A : Type) : Type := World -> result A * World.

Definition ret {A} (a : A) : M A := fun w => (Return a, w).

Definition bind {A B} (m : M A) (k : A -> M B) : M B :=
  fun w =>
    match m w with
    | (Return a, w') => k a w'
    | (Raise e, w') => (Raise e, w')
    end.

Definition raise {A} (e : exn) : M A := fun w => (Raise e, w).

Declare Scope py_scope.
Delimit Scope py_scope with py.
Notation "'do' x <- m ;; k" := (bind m (fun x => k))
  (at level 10, x name, m at level 99, k at level 200) : py_scope.
Notation "'exec' m ;; k" := (bind m (fun _ => k))
  (at level 10, m at level 99, k at level 200) : py_scope.
Local Open Scope py_scope.

(** [for x in xs: body(x)] *)
Fixpoint for_each {A} (body : A -> M unit) (xs : list A) : M unit :=
  match xs with
  | [] => ret tt
  | x :: rest => exec body x ;; for_each body rest
  end.

(** [[m() for _ in range(n)]] *)
Fixpoint replicateM {A} (n : nat) (m : M A) : M (list A) :=
  match n with
  | O => ret []
  | S n' => do x <- m ;; do xs <- replicateM n' m ;; ret (x :: xs)
  end.

(** [wagtail.admin.mail.send_mail]: the message goes to the transport. *)
Definition send_mail (subject body : string) (recipients : list string) : M unit :=
  fun w =>
    (Return tt,
     {| db := db w;
        entropy_cursor := entropy_cursor w;
        outbox := outbox w ++ [{| mail_subject := subject;
                                  mail_body := body;
                                  mail_recipients := recipients |}] |}).

Definition lift {A} (r : result A) : M A := fun w => (r, w).

(** ** Token generation *)

Definition ascii_lowercase : string := "abcdefghijklmnopqrstuvwxyz".
Definition digits : string := "0123456789".

(** [random.SystemRandom().choice(seq)]: one draw below [len(seq)] indexes
    the sequence; an empty sequence raises before anything is drawn. *)
Definition choice `{Host} (seq : string) : M ascii :=
  fun w =>
    let cs := String.list_ascii_of_string seq in
    if (length cs =? 0)%nat
    then (Raise (IndexError "Cannot choose from an empty sequence"), w)
    else
      let w' := {| db := db w;
                   entropy_cursor := S (entropy_cursor w);
                   outbox := outbox w |} in
      match cs !! randbelow (entropy_cursor w) (length cs) with
      | Some c => (Return c, w')
      | None => (Raise (IndexError "string index out of range"), w')
      end.

Definition generate_token `{Host} : M string :=
  do cs <- replicateM 16 (choice (ascii_lowercase ++ digits)) ;;
  ret (join_chars cs).

(** The sequence [string.ascii_lowercase + string.digits]. *)
Definition token_alphabet : list ascii :=
  String.list_ascii_of_string (ascii_lowercase ++ digits).

(** A lowercase ASCII letter or a decimal digit, by character code. *)
Definition lower_or_digit (c : ascii) : Prop :=
  let n := nat_of_ascii c in
  (97 <= n <= 122)%nat \/ (48 <= n <= 57)%nat.

(** The world after [n] draws. *)
Definition after_draws (n : nat) (w : World) : World :=
  {| db := db w; entropy_cursor := (n + entropy_cursor w)%nat; outbox := outbox w |}.

(** The characters [n] successive draws from position [i] select. *)
Definition drawn `{Host} (i n : nat) : list ascii :=
  (fun k => nth (randbelow (i + k) 36) token_alphabet "000"%char) <$> seq 0 n.

(** ** Reviewer *)

Definition Reviewer_clean (self : Reviewer) : result unit :=
  match reviewer_user self with
  | None =>
      if negb (truthy (reviewer_email self))
      then Raise (ValidationError
                    "A reviewer must have either an email address or a user account")
      else Return tt
  | Some _ => Return tt
  end.

(** [self.email or self.user.email]; reading [.email] of [None] is an
    [AttributeError]. *)
Definition Reviewer_get_email_address (self : Reviewer) : result string :=
  if truthy (reviewer_email self) then Return (reviewer_email self)
  else match reviewer_user self with
       | Some u => Return (user_email u)
       | None => Raise (AttributeError "'NoneType' object has no attribute 'email'")
       end.

Definition Reviewer_get_name `{Host} (self : Reviewer) : string :=
  match reviewer_user self with
  | Some u => user_display_name u
  | None => reviewer_email self
  end.

Definition with_tokens (self : Reviewer) (rt vt : string) : Reviewer :=
  {| reviewer_pk := reviewer_pk self;
     reviewer_review := reviewer_review self;
     reviewer_user := reviewer_user self;
     reviewer_email := reviewer_email self;
     response_token := rt;
     view_token := vt |}.

Definition with_pk (self : Reviewer) (pk : Z) : Reviewer :=
  {| reviewer_pk := Some pk;
     reviewer_review := reviewer_review self;
     reviewer_user := reviewer_user self;
     reviewer_email := reviewer_email self;
     response_token := response_token self;
     view_token := view_token self |}.

Definition next_reviewer_pk (rows : list Reviewer) : Z :=
  1 + foldr (fun r acc => Z.max (default 0 (reviewer_pk r)) acc) 0 rows.

Definition set_reviewers (w : World) (rows : list Reviewer) : World :=
  {| db := {| reviews := reviews (db w);
              reviewers := rows;
              annotation_ranges := annotation_ranges (db w);
              responses := responses (db w) |};
     entropy_cursor := entropy_cursor w;
     outbox := outbox w |}.

(** [models.Model.save] on the reviewer table: a row without a key is
    inserted under a fresh one; a row with a key replaces the stored row of
    that key, or is inserted when there is none. *)
Definition Model_save (self : Reviewer) : M Reviewer :=
  fun w =>
    let rows := reviewers (db w) in
    match reviewer_pk self with
    | None =>
        let self' := with_pk self (next_reviewer_pk rows) in
        (Return self', set_reviewers w (rows ++ [self']))
    | Some pk =>
        if existsb (fun r => bool_decide (reviewer_pk r = Some pk)) rows
        then (Return self,
              set_reviewers w
                ((fun r => if bool_decide (reviewer_pk r = Some pk)
                           then self else r) <$> rows))
        else (Return self, set_reviewers w (rows ++ [self]))
    end.

Definition Reviewer_save `{Host} (self : Reviewer) : M Reviewer :=
  do rt <- (if negb (truthy (response_token self)) then generate_token
         else ret (response_token self)) ;;
  do vt <- (if negb (truthy (view_token self)) then generate_token
         else ret (view_token self)) ;;
  Model_save (with_tokens self rt vt).

Definition Reviewer_get_respond_url `{Host} (self : Reviewer) (absolute : bool) : string :=
  let url := reverse "wagtail_review:respond"
               [UPk (reviewer_pk self); UStr (response_token self)] in
  if absolute then WAGTAILADMIN_BASE_URL ++ url else url.

Definition Reviewer_get_view_url `{Host} (self : Reviewer) (absolute : bool) : string :=
  let url := reverse "wagtail_review:view"
               [UPk (reviewer_pk self); UStr (view_token self)] in
  if absolute then WAGTAILADMIN_BASE_URL ++ url else url.

(** [BaseReview.revision_as_page] *)
Definition revision_as_page `{Host} (self : Review) : Page :=
  as_object (page_revision self).

(** The message [Reviewer.send_request_email] builds for an address. *)
Definition request_mail `{Host} (self : Reviewer) (email_address : string) : Mail :=
  let context :=
    [("email", CStr email_address);
     ("user", CUser (reviewer_user self));
     ("review", CReview (reviewer_review self));
     ("page", CPage (revision_as_page (reviewer_review self)));
     ("submitter", CUser (Some (submitter (reviewer_review self))));
     ("respond_url", CStr (Reviewer_get_respond_url self true));
     ("view_url", CStr (Reviewer_get_view_url self true))] in
  let email_subject :=
    strip (render_to_string "wagtail_review/email/request_review_subject.txt" context) in
  let email_content :=
    strip (render_to_string "wagtail_review/email/request_review.txt" context) in
  {| mail_subject := email_subject;
     mail_body := email_content;
     mail_recipients := [email_address] |}.

Definition Reviewer_send_request_email `{Host} (self : Reviewer) : M unit :=
  do email_address <- lift (Reviewer_get_email_address self) ;;
  let m := request_mail self email_address in
  send_mail (mail_subject m) (mail_body m) (mail_recipients m).

(** ** BaseReview *)

(** [self.reviewers]: the reverse side of [Reviewer.review]. *)
Definition review_reviewers (d : Database) (self : Review) : list Reviewer :=
  filter (fun r => review_pk (reviewer_review r) = review_pk self) (reviewers d).

(** [qs.exclude(user=u)]: rows whose user column is NULL stay. *)
Definition exclude_user (u : User) (qs : list Reviewer) : list Reviewer :=
  filter (fun r => ¬ (user_pk <$> reviewer_user r = Some (user_pk u))) qs.

Definition BaseReview_send_request_emails `{Host} (self : Review) : M unit :=
  fun w =>
    for_each Reviewer_send_request_email
      (exclude_user (submitter self) (review_reviewers (db w) self)) w.

(** [qs.order_by('created_at')] on the response table. *)
Definition created_at_asc (a b : Response) : Prop :=
  response_created_at a <= response_created_at b.

#[global] Instance created_at_asc_dec a b : Decision (created_at_asc a b).
Proof. unfold created_at_asc; apply _. Defined.

Definition BaseReview_get_responses (d : Database) (self : Review) : list Response :=
  merge_sort created_at_asc
    (filter (fun r => review_pk (reviewer_review (response_reviewer r)) = review_pk self)
       (responses d)).

(** [revision_page_fk_relation = "page_revision__object_id"] *)
Definition revision_page_fk_relation (r : Review) : Z :=
  object_id (page_revision r).

(** [models.Max]: NULL over no rows. *)
Definition Max (xs : list datetime) : option datetime :=
  match xs with
  | [] => None
  | x :: rest => Some (foldr Z.max x rest)
  end.

(** [Case] over a list of [When]s, without a default: the value of the first [When] whose
    condition [pk=k] holds, NULL when none does. *)
Fixpoint Case (whens : list (Z * option datetime)) (pk : Z) : option datetime :=
  match whens with
  | [] => None
  | (k, v) :: rest => if bool_decide (pk = k) then v else Case rest pk
  end.

(** A page row carrying the annotation [last_review_requested_at]. *)
Record AnnotatedPage : Type := {
  page : Page;
  last_review_requested_at : option datetime;
}.

(** Comparison of a nullable column, NULL below every value. *)
Definition null_le (x y : option datetime) : Prop :=
  match x, y with
  | None, _ => True
  | Some _, None => False
  | Some a, Some b => a <= b
  end.

#[global] Instance null_le_dec x y : Decision (null_le x y).
Proof. destruct x as [a|], y as [b|]; simpl; apply _. Defined.

(** [qs.order_by('-last_review_requested_at')] *)
Definition last_review_desc (a b : AnnotatedPage) : Prop :=
  null_le (last_review_requested_at b) (last_review_requested_at a).

#[global] Instance last_review_desc_dec a b : Decision (last_review_desc a b).
Proof. unfold last_review_desc; apply _. Defined.

(** [reviewed_page_ids]: [values_list(fk, flat=True).distinct()]. *)
Definition reviewed_page_ids (d : Database) : list Z :=
  remove_dups (revision_page_fk_relation <$> reviews d).

(** [latest_reviews]: [filter(fk__in=reviewed_page_ids).values(fk)
    .annotate(Max("created_at"))], one row per key with the latest
    creation time among the reviews of that key. *)
Definition latest_reviews (d : Database) : list (Z * option datetime) :=
  let matching :=
    filter (fun r => revision_page_fk_relation r ∈ reviewed_page_ids d) (reviews d) in
  (fun k =>
     (k, Max (review_created_at <$>
                filter (fun r => revision_page_fk_relation r = k) matching)))
    <$> remove_dups (revision_page_fk_relation <$> matching).

(** [latest_reviews_map]: the dict comprehension over [latest_reviews]; a
    later row of the same key would replace an earlier one. *)
Definition latest_reviews_map (d : Database) : gmap Z (option datetime) :=
  foldl (fun m row => <[row.1 := row.2]> m) ∅ (latest_reviews d).

(** [.annotate(last_review_requested_at=Case(When(pk=pk, then=Value(t))
    for pk, t in latest_reviews_map.items()))] on one page row. *)
Definition annotate_last_review_requested_at (d : Database) (p : Page) : AnnotatedPage :=
  {| page := p;
     last_review_requested_at := Case (map_to_list (latest_reviews_map d)) (page_pk p) |}.

Definition BaseReview_get_pages_with_reviews_for_user `{Host}
    (d : Database) (user : User) : list AnnotatedPage :=
  let editable_pages := editable_pages user in
  let pages_with_reviews :=
    merge_sort last_review_desc
      (annotate_last_review_requested_at d
         <$> filter (fun p => page_pk p ∈ reviewed_page_ids d) editable_pages) in
  pages_with_reviews.

(** ** Annotation and AnnotationRange *)

Definition AnnotationRange_as_json_data (self : AnnotationRange) : json :=
  JObj [("start", JStr (range_start self));
        ("startOffset", JNum (start_offset self));
        ("end", JStr (range_end self));
        ("endOffset", JNum (end_offset self))].

(** [self.ranges.all()] *)
Definition annotation_ranges_all (d : Database) (self : Annotation) : list AnnotationRange :=
  filter (fun r => annotation_pk (range_annotation r) = annotation_pk self)
    (annotation_ranges d).

Definition Annotation_as_json_data `{Host} (d : Database) (self : Annotation) : json :=
  JObj [("id", JNum (annotation_pk self));
        ("annotator_schema_version", JStr "v1.0");
        ("created", JStr (isoformat (annotation_created_at self)));
        ("updated", JStr (isoformat (updated_at self)));
        ("text", JStr (text self));
        ("quote", JStr (quote self));
        ("user", JObj [("id", json_of_pk (reviewer_pk (annotation_reviewer self)));
                       ("name", JStr (Reviewer_get_name (annotation_reviewer self)))]);
        ("ranges", JArr (AnnotationRange_as_json_data <$> annotation_ranges_all d self))].

(** ** Response *)

(** The message [Response.send_notification_to_submitter] builds. *)
Definition response_mail `{Host} (self : Response) : Mail :=
  let submitter := submitter (reviewer_review (response_reviewer self)) in
  let context :=
    [("submitter", CUser (Some submitter));
     ("reviewer", CReviewer (response_reviewer self));
     ("review", CReview (reviewer_review (response_reviewer self)));
     ("page", CPage (revision_as_page (reviewer_review (response_reviewer self))));
     ("response", CResponse self)] in
  let email_subject :=
    strip (render_to_string "wagtail_review/email/response_received_subject.txt" context) in
  let email_content :=
    strip (render_to_string "wagtail_review/email/response_received.txt" context) in
  {| mail_subject := email_subject;
     mail_body := email_content;
     mail_recipients := [user_email submitter] |}.

Definition Response_send_notification_to_submitter `{Host} (self : Response) : M unit :=
  let submitter := submitter (reviewer_review (response_reviewer self)) in
  if truthy (user_email submitter)
  then let m := response_mail self in
       send_mail (mail_subject m) (mail_body m) (mail_recipients m)
  else ret tt.

(** ** The life of a review row *)

(** The field default of [BaseReview.status]. *)
Definition status_default : string := "open".

Definition next_review_pk (rows : list Review) : Z :=
  1 + foldr (fun r acc => Z.max (review_pk r) acc) 0 rows.

Definition set_reviews (w : World) (rows : list Review) : World :=
  {| db := {| reviews := rows;
              reviewers := reviewers (db w);
              annotation_ranges := annotation_ranges (db w);
              responses := responses (db w) |};
     entropy_cursor := entropy_cursor w;
     outbox := outbox w |}.

(** [Review.objects.create(page_revision=..., submitter=...)]: the two
    columns that are not editable and not given take what their field
    declares, [status] its default and [created_at] the time of the
    insert. *)
Definition Review_create (revision : Revision) (by_user : User) (now : datetime)
    : M Review :=
  fun w =>
    let rows := reviews (db w) in
    let r := {| review_pk := next_review_pk rows;
                page_revision := revision;
                status := status_default;
                submitter := by_user;
                review_created_at := now |} in
    (Return r, set_reviews w (rows ++ [r])).

(** Every way this module has of changing the world. *)
Inductive operation : Type :=
  | OpReviewCreate (revision : Revision) (by_user : User) (now : datetime)
  | OpReviewerSave (self : Reviewer)
  | OpSendRequestEmails (self : Review)
  | OpSendRequestEmail (self : Reviewer)
  | OpSendNotificationToSubmitter (self : Response).

Definition perform `{Host} (o : operation) (w : World) : World :=
  match o with
  | OpReviewCreate revision by_user now => (Review_create revision by_user now w).2
  | OpReviewerSave self => (Reviewer_save self w).2
  | OpSendRequestEmails self => (BaseReview_send_request_emails self w).2
  | OpSendRequestEmail self => (Reviewer_send_request_email self w).2
  | OpSendNotificationToSubmitter self =>
      (Response_send_notification_to_submitter self w).2
  end.

Definition perform_all `{Host} (ops : list operation) (w : World) : World :=
  foldl (fun w o => perform o w) w ops.

(** The stored status of the review with key [pk]. *)
Definition review_status (w : World) (pk : Z) : option string :=
  (fun hit => status hit.2) <$> list_find (fun r => review_pk r = pk) (reviews (db w)).

(** ** Observations on the mail transport *)

(** The messages sent between two states of the outbox. *)
Definition sent_since (before after : list Mail) : list Mail :=
  drop (length before) after.

(** Some message of [ms] is addressed to [addr]. *)
Definition addressed_to (addr : string) (ms : list Mail) : Prop :=
  Exists (fun m => addr ∈ mail_recipients m) ms.

(** The world with another outbox. *)
Definition with_outbox (w : World) (ms : list Mail) : World :=
  {| db := db w; entropy_cursor := entropy_cursor w; outbox := ms |}.

(** [r] is the reviewer record of the user [u]. *)
Definition reviewer_of_user (u : User) (r : Reviewer) : Prop :=
  user_pk <$> reviewer_user r = Some (user_pk u).

(** [m] is the request message of reviewer [r], sent to the address
    [Reviewer.get_email_address] gives for it. *)
Definition request_mail_of `{Host} (r : Reviewer) (m : Mail) : Prop :=
  exists a, Reviewer_get_email_address r = Return a /\ m = request_mail r a.

#[global] Instance reviewer_of_user_dec u r : Decision (reviewer_of_user u r).
Proof. unfold reviewer_of_user; apply _. Defined.

(** The messages [BaseReview.send_request_emails] sends from [w] are, row
    for row and in the order of the table, the request messages of the
    reviewers of the review that are not the submitter's: one message for
    each such row, and no message besides. *)
Definition request_emails_to_all_but_submitter `{Host} (self : Review) (w : World) : Prop :=
  let w' := (BaseReview_send_request_emails self w).2 in
  Forall2 request_mail_of
    (filter (fun r => ~ reviewer_of_user (submitter self) r)
       (filter (fun r => review_pk (reviewer_review r) = review_pk self)
          (reviewers (db w))))
    (sent_since (outbox w) (outbox w')).

(** ** A concrete host and concrete rows, for evaluating the model *)

Lemma sample_randbelow_lt (i n : nat) : (0 < n)%nat -> ((7 * i + 3) mod n < n)%nat.
Proof. intros Hn. apply Nat.mod_upper_bound. lia. Qed.

Definition sample_host : Host := {|
  user_display_name := fun u => "user-" ++ user_email u;
  render_to_string := fun name _ => " " ++ name ++ " ";
  reverse := fun name args =>
    "/" ++ name ++ "/" ++
    String.concat "/" ((fun a => match a with
                                 | UPk _ => "pk"
                                 | UStr s => s
                                 end) <$> args);
  WAGTAILADMIN_BASE_URL := "https://cms.example.org";
  as_object := fun rev => {| page_pk := object_id rev; page_title := "" |};
  isoformat := fun t => if bool_decide (t = 0) then "1970-01-01T00:00:00" else "later";
  editable_pages := fun u =>
    if bool_decide (user_pk u = 1)
    then [{| page_pk := 10; page_title := "Home" |};
          {| page_pk := 11; page_title := "About" |};
          {| page_pk := 12; page_title := "News" |}]
    else [];
  randbelow := fun i n => ((7 * i + 3) mod n)%nat;
  randbelow_lt := sample_randbelow_lt;
|}.

Definition alice : User := {| user_pk := 1; user_email := "alice@example.org" |}.
Definition bob : User := {| user_pk := 2; user_email := "bob@example.org" |}.
Definition carol : User := {| user_pk := 3; user_email := "" |}.

Definition sample_review : Review :=
  {| review_pk := 1;
     page_revision := {| revision_pk := 100; object_id := 10 |};
     status := "open";
     submitter := alice;
     review_created_at := 5 |}.

Definition sample_review_by_carol : Review :=
  {| review_pk := 2;
     page_revision := {| revision_pk := 101; object_id := 12 |};
     status := "closed";
     submitter := carol;
     review_created_at := 9 |}.

Definition mk_reviewer (pk : Z) (r : Review) (u : option User) (e rt vt : string)
    : Reviewer :=
  {| reviewer_pk := Some pk; reviewer_review := r; reviewer_user := u;
     reviewer_email := e; response_token := rt; view_token := vt |}.

Definition reviewer_alice : Reviewer :=
  mk_reviewer 1 sample_review (Some alice) "" "aaaaaaaaaaaaaaaa" "bbbbbbbbbbbbbbbb".
Definition reviewer_bob : Reviewer :=
  mk_reviewer 2 sample_review (Some bob) "" "cccccccccccccccc" "dddddddddddddddd".
Definition reviewer_external : Reviewer :=
  mk_reviewer 3 sample_review None "eve@example.org" "eeeeeeeeeeeeeeee" "ffffffffffffffff".
(** A row the schema admits ([user] is nullable, [email] may be blank) and
    [Reviewer.clean] rejects. *)
Definition reviewer_nobody : Reviewer :=
  mk_reviewer 4 sample_review None "" "gggggggggggggggg" "hhhhhhhhhhhhhhhh".
Definition reviewer_both : Reviewer :=
  mk_reviewer 5 sample_review (Some bob) "robert@example.org"
    "iiiiiiiiiiiiiiii" "jjjjjjjjjjjjjjjj".
Definition reviewer_unsaved : Reviewer :=
  {| reviewer_pk := None; reviewer_review := sample_review;
     reviewer_user := Some bob; reviewer_email := "";
     response_token := ""; view_token := "" |}.

Definition mk_world (d : Database) : World :=
  {| db := d; entropy_cursor := 0; outbox := [] |}.

Definition sample_db : Database :=
  {| reviews := [sample_review; sample_review_by_carol];
     reviewers := [reviewer_alice; reviewer_bob; reviewer_external];
     annotation_ranges := [];
     responses := [] |}.

(** The same review with the row without user and email ahead of the
    external reviewer. *)
Definition db_with_nobody : Database :=
  {| reviews := [sample_review];
     reviewers := [reviewer_alice; reviewer_nobody; reviewer_external];
     annotation_ranges := [];
     responses := [] |}.

Definition mk_review (pk page_key t : Z) : Review :=
  {| review_pk := pk;
     page_revision := {| revision_pk := 100 + pk; object_id := page_key |};
     status := "open";
     submitter := alice;
     review_created_at := t |}.

(** Two reviews of page 10, two of page 12, one of a page alice may not
    edit; page 11 has none. *)
Definition db_with_pages : Database :=
  {| reviews := [mk_review 1 10 5; mk_review 2 12 9; mk_review 3 10 20;
                 mk_review 4 99 30; mk_review 5 12 7];
     reviewers := [];
     annotation_ranges := [];
     responses := [] |}.

Definition mk_response (pk : Z) (r : Reviewer) (t : Z) : Response :=
  {| response_pk := pk; response_reviewer := r; response_result := "comment";
     comment := ""; response_created_at := t |}.

Definition reviewer_elsewhere : Reviewer :=
  mk_reviewer 6 sample_review_by_carol (Some bob) "" "kkkkkkkkkkkkkkkk" "llllllllllllllll".

Definition db_with_responses : Database :=
  {| reviews := [sample_review; sample_review_by_carol];
     reviewers := [reviewer_alice; reviewer_bob; reviewer_external; reviewer_elsewhere];
     annotation_ranges := [];
     responses := [mk_response 1 reviewer_bob 30; mk_response 2 reviewer_elsewhere 10;
                   mk_response 3 reviewer_external 20; mk_response 4 reviewer_bob 15] |}.

(** ** Further queries and observations *)

(** The join condition [fk = pk] of SQL on nullable keys: never true on
    NULL. *)
Definition sql_eq (a b : option Z) : Prop :=
  match a, b with
  | Some x, Some y => x = y
  | _, _ => False
  end.

#[global] Instance sql_eq_dec a b : Decision (sql_eq a b).
Proof. destruct a as [x|], b as [y|]; simpl; apply _. Defined.

(** [response] is a row of [reviewer.responses]. *)
Definition response_of (r : Reviewer) (response : Response) : Prop :=
  sql_eq (reviewer_pk (response_reviewer response)) (reviewer_pk r).

#[global] Instance response_of_dec r response : Decision (response_of r response).
Proof. unfold response_of; apply _. Defined.

(** [self.reviewers.filter(responses__isnull=True).exclude(user=self.submitter)]:
    the outer join with the response table keeps, under [IS NULL], the
    reviewers no response row points at. *)
Definition BaseReview_get_non_responding_reviewers (d : Database) (self : Review)
    : list Reviewer :=
  exclude_user (submitter self)
    (filter (fun r => Forall (fun response => ~ response_of r response) (responses d))
       (review_reviewers d self)).

(** The first character of a string, and the last. *)
Definition first_char (s : string) : option ascii :=
  match s with
  | EmptyString => None
  | String c _ => Some c
  end.

Fixpoint last_char (s : string) : option ascii :=
  match s with
  | EmptyString => None
  | String c EmptyString => Some c
  | String _ s' => last_char s'
  end.

(** No whitespace at either end. *)
Definition trimmed (s : string) : Prop :=
  (forall c, first_char s = Some c -> isspace c = false) /\
  (forall c, last_char s = Some c -> isspace c = false).

(** The sample host with the entropy stream fixed in advance: the [i]-th
    draw below [n] is the [i]-th number of [ds], reduced below [n]. *)
Lemma listed_randbelow_lt (ds : list nat) (i n : nat) :
  (0 < n)%nat -> (nth i ds 0%nat mod n < n)%nat.
Proof. intros Hn. apply Nat.mod_upper_bound. lia. Qed.

Definition host_with_draws (ds : list nat) : Host := {|
  user_display_name := @user_display_name sample_host;
  render_to_string := @render_to_string sample_host;
  reverse := @reverse sample_host;
  WAGTAILADMIN_BASE_URL := @WAGTAILADMIN_BASE_URL sample_host;
  as_object := @as_object sample_host;
  isoformat := @isoformat sample_host;
  editable_pages := @editable_pages sample_host;
  randbelow := fun i n => (nth i ds 0%nat mod n)%nat;
  randbelow_lt := listed_randbelow_lt ds;
|}.

(** The position of a character in a sequence (its length when absent). *)
Fixpoint index_of (c : ascii) (cs : list ascii) : nat :=
  match cs with
  | [] => 0%nat
  | c' :: rest => if bool_decide (c = c') then 0%nat else S (index_of c rest)
  end.

Definition reviewer_of_carol : Reviewer :=
  mk_reviewer 7 sample_review (Some carol) "" "mmmmmmmmmmmmmmmm" "nnnnnnnnnnnnnnnn".

Definition db_nobody_after_bob : Database :=
  {| reviews := [sample_review];
     reviewers := [reviewer_alice; reviewer_bob; reviewer_nobody; reviewer_external];
     annotation_ranges := [];
     responses := [] |}.

(** Bob has responded, the external reviewer has not. *)
Definition db_one_response : Database :=
  {| reviews := [sample_review; sample_review_by_carol];
     reviewers := [reviewer_alice; reviewer_bob; reviewer_external; reviewer_elsewhere];
     annotation_ranges := [];
     responses := [mk_response 1 reviewer_bob 30; mk_response 2 reviewer_elsewhere 10] |}.

(** The reviews of [db_with_pages], stored the other way round. *)
Definition db_with_pages_reversed : Database :=
  {| reviews := rev (reviews db_with_pages);
     reviewers := [];
     annotation_ranges := [];
     responses := [] |}.

(** Every response row that points at a reviewer row carries that row's
    review. *)
Definition responses_follow_reviewers (d : Database) : Prop :=
  Forall (fun response =>
            Forall (fun r => response_of r response ->
                             review_pk (reviewer_review (response_reviewer response)) =
                             review_pk (reviewer_review r))
              (reviewers d))
    (responses d).

Definition sample_annotation (r : Reviewer) : Annotation :=
  {| annotation_pk := 1; annotation_reviewer := r; quote := "a draft";
     text := "reword"; annotation_created_at := 0; updated_at := 7 |}.

(** [reviewer_bob] with other tokens. *)
Definition reviewer_bob_retokened : Reviewer :=
  mk_reviewer 2 sample_review (Some bob) "" "0000000000000000" "1111111111111111".

(** [reviewer_bob] with another response token and the same view token. *)
Definition reviewer_bob_new_response : Reviewer :=
  mk_reviewer 2 sample_review (Some bob) "" "0000000000000000" "dddddddddddddddd".

(** One world continues another: the outbox is extended, the reviewer
    table is no shorter, the review table is extended and the entropy
    stream is no further back. *)
Definition continues (w w' : World) : Prop :=
  outbox w `prefix_of` outbox w' /\
  reviews (db w) `prefix_of` reviews (db w') /\
  (length (reviewers (db w)) <= length (reviewers (db w')))%nat /\
  responses (db w') = responses (db w) /\
  annotation_ranges (db w') = annotation_ranges (db w) /\
  (entropy_cursor w <= entropy_cursor w')%nat.

(** ** The closing of a review *)

Definition with_status (r : Review) (s : string) : Review :=
  {| review_pk := review_pk r;
     page_revision := page_revision r;
     status := s;
     submitter := submitter r;
     review_created_at := review_created_at r |}.

(** Modelled from the spec: the closing of a review. [models.py] declares
    [status] with its two choices and its default and never assigns it;
    the code that does is in the views of the repository. The data model
    of the specification gives a review a status, open or closed, and one
    transition, from open to closed. Closing the review with key [pk]
    stores closed for it when it is open; a review that is not open, and
    every other row, is left as it is. *)
Definition close_row (pk : Z) (r : Review) : Review :=
  if bool_decide (review_pk r = pk /\ status r = "open")
  then with_status r "closed" else r.

Definition Review_close (pk : Z) : M unit :=
  fun w => (Return tt, set_reviews w (close_row pk <$> reviews (db w))).

(** Modelled from the spec: what happens to the review table over time,
    the closing of a review besides the operations of this module (among
    them the creation of a review with the default of its [status]
    field). *)
Inductive review_event : Type :=
  | EvClose (pk : Z)
  | EvOperation (o : operation).

Definition apply_event `{Host} (e : review_event) (w : World) : World :=
  match e with
  | EvClose pk => (Review_close pk w).2
  | EvOperation o => perform o w
  end.

Definition apply_events `{Host} (events : list review_event) (w : World) : World :=
  foldl (fun w e => apply_event e w) w events.


(** * Properties *)

(** ** Python values *)

Lemma truthy_true (s : string) : truthy s = true <-> s <> "".
Proof. destruct s; simpl; split; congruence. Qed.

Lemma truthy_false (s : string) : truthy s = false <-> s = "".
Proof. destruct s; simpl; split; congruence. Qed.

Lemma sent_since_app (before new : list Mail) :
  sent_since before (before ++ new) = new.
Proof. unfold sent_since. apply drop_app_length. Qed.

Lemma sent_since_same (before : list Mail) : sent_since before before = [].
Proof. unfold sent_since. apply drop_all. Qed.

(** ** Reviewer validation and identity *)

(** C2. [Reviewer.clean] raises, and what it raises is the validation
    error, exactly when the reviewer has no user and an empty email; with a
    user or an email it returns without an error. *)
Theorem Reviewer_clean_raises_iff_unidentified (self : Reviewer) :
  ((exists e, Reviewer_clean self = Raise e) <->
     reviewer_user self = None /\ reviewer_email self = "") /\
  (Reviewer_clean self = Return tt <->
     reviewer_user self <> None \/ reviewer_email self <> "") /\
  (forall e, Reviewer_clean self = Raise e -> exists msg, e = ValidationError msg).
Proof.
  unfold Reviewer_clean.
  destruct (reviewer_user self) as [u|]; destruct (reviewer_email self) as [|c s];
    simpl; repeat split; intros;
    repeat match goal with
           | H : exists _, _ |- _ => destruct H
           | H : _ /\ _ |- _ => destruct H
           | H : _ \/ _ |- _ => destruct H
           end;
    try congruence; eauto.
  all: try (right; congruence); try (left; congruence).
  all: match goal with H : Raise _ = Raise _ |- _ => inversion H; eauto end.
Qed.

(** C10. A reviewer with a user and an email passes validation; the email
    address of a reviewer is its own email field whenever that is not
    empty, and the user's only when the field is empty; the name is the
    user's display name whenever there is a user, and the email field
    otherwise. *)
Theorem Reviewer_email_first_name_user_first `{Host} (self : Reviewer) :
  (forall u, reviewer_user self = Some u -> reviewer_email self <> "" ->
     Reviewer_clean self = Return tt /\
     Reviewer_get_email_address self = Return (reviewer_email self) /\
     Reviewer_get_name self = user_display_name u) /\
  (reviewer_email self <> "" ->
     Reviewer_get_email_address self = Return (reviewer_email self)) /\
  (forall u, reviewer_user self = Some u ->
     (Reviewer_get_email_address self = Return (user_email u) <->
        reviewer_email self = "" \/ reviewer_email self = user_email u)) /\
  (forall u, reviewer_user self = Some u ->
     Reviewer_get_name self = user_display_name u) /\
  (reviewer_user self = None -> Reviewer_get_name self = reviewer_email self).
Proof.
  unfold Reviewer_clean, Reviewer_get_email_address, Reviewer_get_name.
  split; [|split; [|split; [|split]]].
  - intros u Hu Hne. rewrite Hu. apply truthy_true in Hne. now rewrite Hne.
  - intros Hne. apply truthy_true in Hne. now rewrite Hne.
  - intros u Hu. rewrite Hu. split.
    + intros Heq. destruct (truthy (reviewer_email self)) eqn:Ht.
      * right. congruence.
      * left. now apply truthy_false.
    + intros [He | He].
      * apply truthy_false in He. now rewrite He.
      * destruct (truthy (reviewer_email self)); congruence.
  - intros u Hu. now rewrite Hu.
  - intros Hu. now rewrite Hu.
Qed.

(** ** Response notification *)

(** C4. [Response.send_notification_to_submitter] returns without an
    error and leaves the tables alone; it hands the transport one message,
    addressed to the submitter alone, when the submitter's email is not
    empty, and nothing when it is empty: a message is sent exactly when the
    submitter has an email address. *)
Theorem notification_iff_submitter_has_email `{Host} (self : Response) (w : World) :
  let s := submitter (reviewer_review (response_reviewer self)) in
  let r := Response_send_notification_to_submitter self w in
  r.1 = Return tt /\
  db r.2 = db w /\
  (user_email s <> "" ->
     sent_since (outbox w) (outbox r.2) = [response_mail self] /\
     mail_recipients (response_mail self) = [user_email s]) /\
  (user_email s = "" -> outbox r.2 = outbox w) /\
  (sent_since (outbox w) (outbox r.2) <> [] <-> user_email s <> "").
Proof.
  cbv zeta. unfold Response_send_notification_to_submitter.
  destruct (truthy (user_email (submitter (reviewer_review (response_reviewer self)))))
    eqn:Ht.
  - apply truthy_true in Ht. unfold send_mail; simpl.
    rewrite sent_since_app.
    split; [reflexivity|]. split; [reflexivity|].
    split; [intros _; split; reflexivity|].
    split; [intros He; contradiction|].
    split; [intros _; exact Ht | intros _; discriminate].
  - apply truthy_false in Ht. unfold ret; simpl.
    rewrite sent_since_same.
    split; [reflexivity|]. split; [reflexivity|].
    split; [intros Hne; contradiction|].
    split; [reflexivity|].
    split; [intros Hne; contradiction | intros Hne; contradiction].
Qed.

(** ** Token generation *)

Lemma token_alphabet_length : length token_alphabet = 36%nat.
Proof. reflexivity. Qed.

Lemma token_alphabet_NoDup : NoDup token_alphabet.
Proof. apply (bool_decide_unpack _). vm_compute. exact I. Qed.

Lemma token_alphabet_lower_or_digit : Forall lower_or_digit token_alphabet.
Proof.
  unfold token_alphabet, lower_or_digit.
  repeat (constructor; [vm_compute; lia|]). constructor.
Qed.

Lemma lookup_nth_lt {A} (l : list A) (i : nat) (d : A) :
  (i < length l)%nat -> l !! i = Some (nth i l d).
Proof. intros Hi. destruct (nth_lookup_or_length l i d) as [Hs | Hge]; [exact Hs | lia]. Qed.

Lemma token_alphabet_nth_inj (i j : nat) :
  (i < 36)%nat -> (j < 36)%nat ->
  nth i token_alphabet "000"%char = nth j token_alphabet "000"%char -> i = j.
Proof.
  intros Hi Hj Heq.
  apply (NoDup_lookup token_alphabet i j (nth i token_alphabet "000"%char)).
  - exact token_alphabet_NoDup.
  - apply lookup_nth_lt. now rewrite token_alphabet_length.
  - rewrite Heq. apply lookup_nth_lt. now rewrite token_alphabet_length.
Qed.

Lemma choice_token_alphabet `{Host} (w : World) :
  choice (ascii_lowercase ++ digits) w =
  (Return (nth (randbelow (entropy_cursor w) 36) token_alphabet "000"%char),
   after_draws 1 w).
Proof.
  unfold choice. fold token_alphabet. rewrite token_alphabet_length. simpl Nat.eqb.
  cbv iota.
  pose proof (randbelow_lt (entropy_cursor w) 36 ltac:(lia)) as Hlt.
  destruct (token_alphabet !! randbelow (entropy_cursor w) 36) as [c|] eqn:Hc.
  - rewrite (nth_lookup_Some _ _ "000"%char _ Hc). reflexivity.
  - apply lookup_ge_None in Hc. rewrite token_alphabet_length in Hc. lia.
Qed.

Lemma after_draws_after_draws (n m : nat) (w : World) :
  after_draws n (after_draws m w) = after_draws (n + m) w.
Proof. unfold after_draws; simpl. f_equal. lia. Qed.

Lemma drawn_S `{Host} (i n : nat) :
  drawn i (S n) = nth (randbelow i 36) token_alphabet "000"%char :: drawn (S i) n.
Proof.
  unfold drawn. rewrite <- cons_seq, fmap_cons, <- fmap_S_seq, <- list_fmap_compose.
  rewrite Nat.add_0_r. f_equal. apply list_fmap_ext. intros _ k _. simpl.
  now rewrite Nat.add_succ_r.
Qed.

Lemma replicateM_choice `{Host} (n : nat) (w : World) :
  replicateM n (choice (ascii_lowercase ++ digits)) w =
  (Return (drawn (entropy_cursor w) n), after_draws n w).
Proof.
  revert w. induction n as [|n IH]; intros w.
  - simpl. unfold ret, after_draws. now destruct w.
  - cbn [replicateM]. unfold bind at 1. rewrite choice_token_alphabet.
    unfold bind at 1. rewrite IH. unfold ret.
    rewrite after_draws_after_draws, drawn_S. simpl entropy_cursor.
    now replace (n + 1)%nat with (S n) by lia.
Qed.

Lemma generate_token_draws `{Host} (w : World) :
  generate_token w = (Return (join_chars (drawn (entropy_cursor w) 16)), after_draws 16 w).
Proof.
  unfold generate_token, bind. now rewrite replicateM_choice.
Qed.

Lemma drawn_length `{Host} (i n : nat) : length (drawn i n) = n.
Proof. unfold drawn. now rewrite length_fmap, length_seq. Qed.

Lemma drawn_in_alphabet `{Host} (i n : nat) : Forall (fun c => c ∈ token_alphabet) (drawn i n).
Proof.
  unfold drawn. apply Forall_fmap, Forall_forall. intros k _. cbv beta.
  apply list_elem_of_In, nth_In. rewrite token_alphabet_length.
  apply randbelow_lt. lia.
Qed.

Lemma join_chars_length (cs : list ascii) : String.length (join_chars cs) = length cs.
Proof. unfold join_chars. induction cs; simpl; congruence. Qed.

Lemma join_chars_truthy (cs : list ascii) : cs <> [] -> truthy (join_chars cs) = true.
Proof. destruct cs; [congruence | reflexivity]. Qed.

Lemma get_join_chars (cs : list ascii) (k : nat) :
  String.get k (join_chars cs) = cs !! k.
Proof.
  unfold join_chars. revert k. induction cs as [|c cs IH]; intros [|k]; simpl; auto.
Qed.

Lemma lower_or_digit_alphabet (c : ascii) : lower_or_digit c <-> c ∈ token_alphabet.
Proof.
  split.
  - unfold lower_or_digit.
    destruct c as [[] [] [] [] [] [] [] []]; intros Hc;
      first [ apply (bool_decide_unpack _); vm_compute; exact I
            | exfalso; vm_compute in Hc; lia ].
  - intros Hc. exact (proj1 (Forall_forall _ _) token_alphabet_lower_or_digit c Hc).
Qed.

(** X21. [generate_token] returns a token, for any state of the entropy
    stream, after exactly 16 draws below 36; the token has 16 characters;
    its [k]-th character is the one the [k]-th of these draws selects from
    the 36 characters of [ascii_lowercase + digits]; these are pairwise
    distinct and are exactly the lowercase ASCII letters and the decimal
    digits, so every character of the token is one of them. *)
Theorem generate_token_16_lower_or_digit `{Host} (w : World) :
  exists tok,
    generate_token w = (Return tok, after_draws 16 w) /\
    String.length tok = 16%nat /\
    Forall lower_or_digit (String.list_ascii_of_string tok) /\
    (forall k, (k < 16)%nat ->
       String.get k tok =
       token_alphabet !! randbelow (entropy_cursor w + k) (length token_alphabet)) /\
    length token_alphabet = 36%nat /\
    NoDup token_alphabet /\
    (forall c, lower_or_digit c <-> c ∈ token_alphabet).
Proof.
  exists (join_chars (drawn (entropy_cursor w) 16)).
  split; [apply generate_token_draws|].
  split; [now rewrite join_chars_length, drawn_length|].
  split.
  { unfold join_chars. rewrite String.list_ascii_of_string_of_list_ascii.
    eapply Forall_impl; [apply drawn_in_alphabet|].
    intros c Hc. now apply lower_or_digit_alphabet. }
  split.
  { intros k Hk. rewrite get_join_chars, token_alphabet_length.
    unfold drawn. rewrite list_lookup_fmap, lookup_seq_lt by exact Hk.
    cbn [fmap option_fmap option_map Nat.add]. symmetry. apply lookup_nth_lt.
    rewrite token_alphabet_length. apply randbelow_lt. lia. }
  split; [exact token_alphabet_length|].
  split; [exact token_alphabet_NoDup|].
  exact lower_or_digit_alphabet.
Qed.

(** ** Saving a reviewer *)

Lemma Model_save_returns (self : Reviewer) (w : World) :
  exists self' w',
    Model_save self w = (Return self', w') /\
    response_token self' = response_token self /\
    view_token self' = view_token self /\
    entropy_cursor w' = entropy_cursor w /\
    reviews (db w') = reviews (db w) /\
    outbox w' = outbox w.
Proof.
  unfold Model_save. destruct (reviewer_pk self) as [pk|].
  - destruct (existsb _ _); eexists _, _; (split; [reflexivity|]); simpl; auto.
  - eexists _, _. split; [reflexivity|]. simpl; auto.
Qed.

(** What [Reviewer.save] leaves in the token fields, and how many draws it
    makes. *)
Lemma Reviewer_save_returns `{Host} (self : Reviewer) (w : World) :
  let n1 := if truthy (response_token self) then 0%nat else 16%nat in
  let n2 := if truthy (view_token self) then 0%nat else 16%nat in
  exists self' w',
    Reviewer_save self w = (Return self', w') /\
    response_token self' =
      (if truthy (response_token self) then response_token self
       else join_chars (drawn (entropy_cursor w) 16)) /\
    view_token self' =
      (if truthy (view_token self) then view_token self
       else join_chars (drawn (n1 + entropy_cursor w) 16)) /\
    entropy_cursor w' = (n2 + (n1 + entropy_cursor w))%nat /\
    reviews (db w') = reviews (db w) /\
    outbox w' = outbox w.
Proof.
  cbv zeta. unfold Reviewer_save.
  destruct (truthy (response_token self)) eqn:Hr;
    destruct (truthy (view_token self)) eqn:Hv; simpl negb; cbv iota;
    unfold bind, ret; repeat (rewrite generate_token_draws; cbv beta iota);
    match goal with
    | |- context [Model_save ?s ?w0] =>
        destruct (Model_save_returns s w0)
          as (self' & w' & -> & Hrt & Hvt & Hc & Hd & Ho)
    end;
    exists self', w'; rewrite Hrt, Hvt, Hc, Hd, Ho;
    cbn [response_token view_token with_tokens entropy_cursor after_draws db
         outbox reviews Nat.add];
    repeat split; reflexivity.
Qed.

(** C1. [Reviewer.save] returns; a token that is not empty before the
    call has the same value after it; a token that is empty before the call
    is a freshly generated one of 16 characters after it; so after any save
    both tokens are non-empty, and a further save, in whatever state of the
    world, keeps both and draws nothing from the entropy stream: each token
    is generated once, at the first save. *)
Theorem Reviewer_save_mints_tokens_once `{Host} (self : Reviewer) (w : World) :
  exists self' w',
    Reviewer_save self w = (Return self', w') /\
    (response_token self <> "" -> response_token self' = response_token self) /\
    (view_token self <> "" -> view_token self' = view_token self) /\
    (response_token self = "" -> String.length (response_token self') = 16%nat) /\
    (view_token self = "" -> String.length (view_token self') = 16%nat) /\
    response_token self' <> "" /\
    view_token self' <> "" /\
    (forall w1, exists self'' w1',
       Reviewer_save self' w1 = (Return self'', w1') /\
       response_token self'' = response_token self' /\
       view_token self'' = view_token self' /\
       entropy_cursor w1' = entropy_cursor w1).
Proof.
  destruct (Reviewer_save_returns self w) as (self' & w' & Hs & Hrt & Hvt & _).
  exists self', w'. split; [exact Hs|].
  assert (Hr' : truthy (response_token self') = true).
  { rewrite Hrt. destruct (truthy (response_token self)) eqn:Ht; [exact Ht|].
    apply join_chars_truthy. intros Hnil.
    pose proof (drawn_length (entropy_cursor w) 16) as Hl. rewrite Hnil in Hl.
    discriminate. }
  assert (Hv' : truthy (view_token self') = true).
  { rewrite Hvt. destruct (truthy (view_token self)) eqn:Ht; [exact Ht|].
    apply join_chars_truthy. intros Hnil.
    match type of Hnil with drawn ?i _ = _ =>
      pose proof (drawn_length i 16) as Hl end.
    rewrite Hnil in Hl. discriminate. }
  split. { intros Hne. apply truthy_true in Hne. now rewrite Hrt, Hne. }
  split. { intros Hne. apply truthy_true in Hne. now rewrite Hvt, Hne. }
  split. { intros He. apply truthy_false in He. rewrite Hrt, He.
           now rewrite join_chars_length, drawn_length. }
  split. { intros He. apply truthy_false in He. rewrite Hvt, He.
           now rewrite join_chars_length, drawn_length. }
  split; [now apply truthy_true|]. split; [now apply truthy_true|].
  intros w1.
  destruct (Reviewer_save_returns self' w1) as (s2 & w2 & Hs2 & Hrt2 & Hvt2 & Hc2 & _).
  rewrite Hr' in Hrt2, Hvt2, Hc2. rewrite Hv' in Hvt2, Hc2.
  exists s2, w2. auto.
Qed.

(** ** Review requests *)

Lemma clean_get_email_address (r : Reviewer) :
  Reviewer_clean r = Return tt -> exists a, Reviewer_get_email_address r = Return a.
Proof.
  unfold Reviewer_clean, Reviewer_get_email_address.
  destruct (reviewer_user r) as [u|]; destruct (truthy (reviewer_email r));
    simpl; intros Hc; try discriminate; eauto.
Qed.

Lemma send_request_email_returns `{Host} (r : Reviewer) (a : string) (w : World) :
  Reviewer_get_email_address r = Return a ->
  Reviewer_send_request_email r w =
  (Return tt, with_outbox w (outbox w ++ [request_mail r a])).
Proof.
  intros Ha. unfold Reviewer_send_request_email, bind, lift. rewrite Ha.
  unfold send_mail, with_outbox. now destruct (request_mail r a).
Qed.

Lemma send_request_email_raises `{Host} (r : Reviewer) (e : exn) (w : World) :
  Reviewer_get_email_address r = Raise e ->
  Reviewer_send_request_email r w = (Raise e, w).
Proof.
  intros Ha. unfold Reviewer_send_request_email, bind, lift. now rewrite Ha.
Qed.

(** The loop over reviewers that all pass [clean] runs to its end and
    appends one request message per reviewer, in order. *)
Lemma for_each_send_request_email `{Host} (rs : list Reviewer) (w : World) :
  Forall (fun r => Reviewer_clean r = Return tt) rs ->
  exists ms,
    for_each Reviewer_send_request_email rs w = (Return tt, with_outbox w (outbox w ++ ms)) /\
    Forall2 request_mail_of rs ms.
Proof.
  intros Hrs. revert w. induction Hrs as [|r rs Hr _ IH]; intros w.
  - exists []. split; [|constructor].
    cbn [for_each]. unfold ret, with_outbox. rewrite app_nil_r. now destruct w.
  - destruct (clean_get_email_address r Hr) as [a Ha].
    destruct (IH (with_outbox w (outbox w ++ [request_mail r a]))) as (ms & Hrun & Hms).
    exists (request_mail r a :: ms). split.
    + cbn [for_each]. unfold bind. rewrite (send_request_email_returns r a w Ha).
      rewrite Hrun. unfold with_outbox; cbn [db entropy_cursor outbox].
      now rewrite <- app_assoc.
    + constructor; [exists a; auto | exact Hms].
Qed.

Lemma not_clean_get_email_address (r : Reviewer) :
  Reviewer_clean r <> Return tt ->
  exists msg, Reviewer_get_email_address r = Raise (AttributeError msg).
Proof.
  unfold Reviewer_clean, Reviewer_get_email_address.
  destruct (reviewer_user r) as [u|]; destruct (truthy (reviewer_email r));
    simpl; intros Hc; try congruence; eauto.
Qed.

(** The loop stops at the first reviewer that does not pass [clean]: the
    call raises [AttributeError], and no reviewer after that one is
    reached. *)
Lemma for_each_send_request_email_raises `{Host} (rs : list Reviewer) (w : World) :
  Exists (fun r => Reviewer_clean r <> Return tt) rs ->
  exists msg w',
    for_each Reviewer_send_request_email rs w = (Raise (AttributeError msg), w').
Proof.
  revert w. induction rs as [|r rs IH]; intros w Hex.
  - inversion Hex.
  - cbn [for_each]. unfold bind.
    destruct (Reviewer_get_email_address r) as [a|e] eqn:Ha.
    + rewrite (send_request_email_returns r a w Ha).
      apply Exists_cons in Hex as [Hbad | Hex].
      * destruct (not_clean_get_email_address r Hbad) as [msg Hmsg]. congruence.
      * apply IH, Hex.
    + rewrite (send_request_email_raises r e w Ha).
      assert (Hbad : Reviewer_clean r <> Return tt).
      { intros Hc. destruct (clean_get_email_address r Hc) as [a Ha']. congruence. }
      destruct (not_clean_get_email_address r Hbad) as [msg Hmsg].
      exists msg, w. congruence.
Qed.

Lemma exclude_user_spec (u : User) (qs : list Reviewer) (r : Reviewer) :
  r ∈ exclude_user u qs <-> r ∈ qs /\ ~ reviewer_of_user u r.
Proof. unfold exclude_user, reviewer_of_user. rewrite list_elem_of_filter. tauto. Qed.

(** C3, as the code has it. When every reviewer of the review other than
    the submitter's passes [Reviewer.clean] (has a user or an email),
    [BaseReview.send_request_emails] returns without an error, and the
    messages it sends are, row for row and in the order of the table, the
    request messages of the reviewers of the review that are not the
    submitter's: exactly one for each of them and no other message, so a
    reviewer of the review gets a request exactly when its user is not the
    submitter. *)
Theorem request_emails_to_identified_reviewers `{Host} (self : Review) (w : World) :
  Forall (fun r => Reviewer_clean r = Return tt)
    (exclude_user (submitter self) (review_reviewers (db w) self)) ->
  (BaseReview_send_request_emails self w).1 = Return tt /\
  request_emails_to_all_but_submitter self w.
Proof.
  intros Hclean.
  destruct (for_each_send_request_email _ w Hclean) as (ms & Hrun & Hms).
  unfold request_emails_to_all_but_submitter, BaseReview_send_request_emails.
  cbv zeta. rewrite Hrun. cbn [fst snd with_outbox outbox].
  split; [reflexivity|].
  rewrite sent_since_app.
  erewrite list_filter_iff; [exact Hms|].
  intros r. unfold reviewer_of_user. reflexivity.
Qed.

Lemma request_emails_to_identified_reviewers_witness :
  Forall (fun r => Reviewer_clean r = Return tt)
    (exclude_user (submitter sample_review)
       (review_reviewers (db (mk_world sample_db)) sample_review)) /\
  (@BaseReview_send_request_emails sample_host sample_review (mk_world sample_db)).1
    = Return tt /\
  @request_emails_to_all_but_submitter sample_host sample_review (mk_world sample_db).
Proof.
  assert (Hclean : Forall (fun r => Reviewer_clean r = Return tt)
            (exclude_user (submitter sample_review)
               (review_reviewers (db (mk_world sample_db)) sample_review))).
  { vm_compute. repeat constructor. }
  exact (conj Hclean
           (@request_emails_to_identified_reviewers sample_host sample_review
              (mk_world sample_db) Hclean)).
Defined.

(** C3, as stated, fails on a review that has a reviewer without user and
    email ahead of another reviewer: the call raises at the first, nothing
    is sent, and the external reviewer, who is not the submitter, gets no
    message. *)
Lemma request_emails_stop_at_unidentified_reviewer :
  @BaseReview_send_request_emails sample_host sample_review (mk_world db_with_nobody)
    = (Raise (AttributeError "'NoneType' object has no attribute 'email'"),
       mk_world db_with_nobody) /\
  reviewer_external ∈ review_reviewers db_with_nobody sample_review /\
  ~ reviewer_of_user (submitter sample_review) reviewer_external /\
  ~ @request_emails_to_all_but_submitter sample_host sample_review
      (mk_world db_with_nobody).
Proof.
  assert (Hin : reviewer_external ∈ review_reviewers db_with_nobody sample_review).
  { vm_compute. do 2 apply list_elem_of_further. apply list_elem_of_here. }
  assert (Hnot : ~ reviewer_of_user (submitter sample_review) reviewer_external).
  { vm_compute. discriminate. }
  split; [reflexivity|]. split; [exact Hin|]. split; [exact Hnot|].
  unfold not, request_emails_to_all_but_submitter. cbv zeta. intros Hsent.
  change (sent_since _ _) with (@nil Mail) in Hsent.
  apply Forall2_nil_inv_r in Hsent.
  assert (Hmem : reviewer_external ∈
            filter (fun r => ~ reviewer_of_user (submitter sample_review) r)
              (filter (fun r => review_pk (reviewer_review r) = review_pk sample_review)
                 (reviewers (db (mk_world db_with_nobody))))).
  { apply list_elem_of_filter. split; [exact Hnot | exact Hin]. }
  rewrite Hsent in Hmem. now apply not_elem_of_nil in Hmem.
Qed.

(** ** Responses of a review *)

#[global] Instance created_at_asc_total : Total created_at_asc.
Proof. intros a b. unfold created_at_asc. lia. Qed.

#[global] Instance created_at_asc_trans : Transitive created_at_asc.
Proof. intros a b c. unfold created_at_asc. lia. Qed.

(** C9. [BaseReview.get_responses] returns the responses whose reviewer
    belongs to the review, each as often as the table holds it and no
    other, in ascending order of [created_at]: every response in the result
    is at most as recent as all that follow it. *)
Theorem get_responses_of_review_oldest_first (d : Database) (self : Review) :
  BaseReview_get_responses d self ≡ₚ
    filter (fun r => review_pk (reviewer_review (response_reviewer r)) = review_pk self)
      (responses d) /\
  (forall r, r ∈ BaseReview_get_responses d self <->
     r ∈ responses d /\
     review_pk (reviewer_review (response_reviewer r)) = review_pk self) /\
  StronglySorted (fun a b => response_created_at a <= response_created_at b)
    (BaseReview_get_responses d self).
Proof.
  unfold BaseReview_get_responses.
  split; [apply merge_sort_Permutation|].
  split.
  - intros r. rewrite merge_sort_Permutation, list_elem_of_filter. tauto.
  - apply (StronglySorted_merge_sort created_at_asc).
Qed.

(** ** The annotation interchange format *)

Lemma AnnotationRange_as_json_data_shape (r : AnnotationRange) :
  let j := AnnotationRange_as_json_data r in
  json_keys j = Some ["start"; "startOffset"; "end"; "endOffset"] /\
  json_get "start" j = Some (JStr (range_start r)) /\
  json_get "startOffset" j = Some (JNum (start_offset r)) /\
  json_get "end" j = Some (JStr (range_end r)) /\
  json_get "endOffset" j = Some (JNum (end_offset r)).
Proof. cbv zeta. repeat split. Qed.

(** C7. [Annotation.as_json_data] returns an object whose keys are, in
    this order and with no other, id, annotator_schema_version, created,
    updated, text, quote, user and ranges; annotator_schema_version is the
    string v1.0; created and updated are the ISO format of the two
    timestamps; user is an object with exactly the keys id and name, the
    reviewer's key and name; ranges lists, one for one and in order, the
    ranges of the annotation, each as an object with exactly the keys
    start, startOffset, end and endOffset holding the range's fields. *)
Theorem Annotation_as_json_data_shape `{Host} (d : Database) (self : Annotation) :
  let j := Annotation_as_json_data d self in
  json_keys j =
    Some ["id"; "annotator_schema_version"; "created"; "updated"; "text"; "quote";
          "user"; "ranges"] /\
  json_get "id" j = Some (JNum (annotation_pk self)) /\
  json_get "annotator_schema_version" j = Some (JStr "v1.0") /\
  json_get "created" j = Some (JStr (isoformat (annotation_created_at self))) /\
  json_get "updated" j = Some (JStr (isoformat (updated_at self))) /\
  json_get "text" j = Some (JStr (text self)) /\
  json_get "quote" j = Some (JStr (quote self)) /\
  (exists u,
     json_get "user" j = Some u /\
     json_keys u = Some ["id"; "name"] /\
     json_get "id" u = Some (json_of_pk (reviewer_pk (annotation_reviewer self))) /\
     json_get "name" u = Some (JStr (Reviewer_get_name (annotation_reviewer self)))) /\
  (exists items,
     json_get "ranges" j = Some (JArr items) /\
     Forall2
       (fun r jr =>
          json_keys jr = Some ["start"; "startOffset"; "end"; "endOffset"] /\
          json_get "start" jr = Some (JStr (range_start r)) /\
          json_get "startOffset" jr = Some (JNum (start_offset r)) /\
          json_get "end" jr = Some (JStr (range_end r)) /\
          json_get "endOffset" jr = Some (JNum (end_offset r)))
       (annotation_ranges_all d self) items).
Proof.
  cbv zeta. unfold Annotation_as_json_data.
  do 7 (split; [reflexivity|]).
  split.
  - eexists. split; [reflexivity|]. repeat split.
  - eexists. split; [reflexivity|].
    apply Forall2_fmap_r, Forall_Forall2_diag, Forall_forall.
    intros r _. apply AnnotationRange_as_json_data_shape.
Qed.

(** ** The status of a review *)

Lemma send_request_email_db `{Host} (r : Reviewer) (w : World) :
  db (Reviewer_send_request_email r w).2 = db w.
Proof.
  destruct (Reviewer_get_email_address r) as [a|e] eqn:Ha.
  - now rewrite (send_request_email_returns r a w Ha).
  - now rewrite (send_request_email_raises r e w Ha).
Qed.

Lemma for_each_send_request_email_db `{Host} (rs : list Reviewer) (w : World) :
  db (for_each Reviewer_send_request_email rs w).2 = db w.
Proof.
  revert w. induction rs as [|r rs IH]; intros w; [reflexivity|].
  cbn [for_each]. unfold bind.
  pose proof (send_request_email_db r w) as Hdb.
  destruct (Reviewer_send_request_email r w) as [[[]|e] w1]; cbn [snd] in *.
  - now rewrite IH.
  - exact Hdb.
Qed.

Lemma send_notification_db `{Host} (self : Response) (w : World) :
  db (Response_send_notification_to_submitter self w).2 = db w.
Proof.
  unfold Response_send_notification_to_submitter.
  now destruct (truthy _).
Qed.


Lemma review_status_app (w : World) (new : list Review) (pk : Z) (s : string) :
  review_status w pk = Some s ->
  review_status (set_reviews w (reviews (db w) ++ new)) pk = Some s.
Proof.
  unfold review_status. cbn [set_reviews db reviews].
  destruct (list_find _ (reviews (db w))) as [[i x]|] eqn:Hfind; [|discriminate].
  intros Hs. now rewrite (list_find_app_l _ _ new _ _ Hfind).
Qed.

(** An operation keeps the stored status of every review that exists. *)
Lemma perform_review_status `{Host} (o : operation) (w : World) (pk : Z) (s : string) :
  review_status w pk = Some s -> review_status (perform o w) pk = Some s.
Proof.
  intros Hs. destruct o as [revision by_user now | self | self | self | self];
    cbn [perform].
  - unfold Review_create. cbn [snd]. now apply review_status_app.
  - destruct (Reviewer_save_returns self w) as (s' & w' & Hsave & _ & _ & _ & Hr & _).
    rewrite Hsave. cbn [snd]. unfold review_status in *. now rewrite Hr.
  - unfold BaseReview_send_request_emails, review_status in *.
    now rewrite for_each_send_request_email_db.
  - unfold review_status in *. now rewrite send_request_email_db.
  - unfold review_status in *. now rewrite send_notification_db.
Qed.

Lemma perform_all_review_status `{Host} (ops : list operation) (w : World)
    (pk : Z) (s : string) :
  review_status w pk = Some s -> review_status (perform_all ops w) pk = Some s.
Proof.
  unfold perform_all. revert w. induction ops as [|o ops IH]; intros w Hs; [exact Hs|].
  cbn [foldl]. apply IH. now apply perform_review_status.
Qed.







(** ** Pages with reviews *)

Lemma Max_Some (xs : list datetime) :
  xs <> [] -> exists m, Max xs = Some m /\ m ∈ xs /\ forall x, x ∈ xs -> x <= m.
Proof.
  destruct xs as [|x rest]; [congruence|]. intros _.
  exists (foldr Z.max x rest). split; [reflexivity|].
  induction rest as [|y rest [IHin IHle]]; simpl.
  - split; [apply list_elem_of_here|].
    intros z Hz. apply list_elem_of_singleton in Hz. lia.
  - split.
    + destruct (Z.max_spec y (foldr Z.max x rest)) as [[_ ->] | [_ ->]].
      * apply elem_of_cons in IHin as [-> | Hin];
          [apply list_elem_of_here | do 2 apply list_elem_of_further; exact Hin].
      * apply list_elem_of_further, list_elem_of_here.
    + intros z Hz. apply elem_of_cons in Hz as [-> | Hz].
      * specialize (IHle x (list_elem_of_here _ _)). lia.
      * apply elem_of_cons in Hz as [-> | Hz]; [lia|].
        specialize (IHle z (list_elem_of_further _ _ _ Hz)). lia.
Qed.

(** With pairwise distinct keys, [Case] gives the value listed under the
    key, and NULL for a key that is not listed. *)
Lemma Case_elem_of (whens : list (Z * option datetime)) (pk : Z) (v : option datetime) :
  NoDup whens.*1 -> (pk, v) ∈ whens -> Case whens pk = v.
Proof.
  induction whens as [|[k v'] rest IH]; intros Hnd Hin.
  - now apply not_elem_of_nil in Hin.
  - cbn [Case]. cbn in Hnd. apply NoDup_cons in Hnd as [Hk Hnd].
    apply elem_of_cons in Hin as [Heq | Hin].
    + injection Heq as -> ->. now rewrite bool_decide_eq_true_2.
    + rewrite bool_decide_eq_false_2; [now apply IH|].
      intros ->. apply Hk. apply list_elem_of_fmap. now exists (k, v).
Qed.

Lemma foldl_insert_lookup (rows : list (Z * option datetime))
    (m0 : gmap Z (option datetime)) (k : Z) (v : option datetime) :
  NoDup rows.*1 -> (k, v) ∈ rows ->
  foldl (fun m row => <[row.1 := row.2]> m) m0 rows !! k = Some v.
Proof.
  assert (Hout : forall (l : list (Z * option datetime)) (m : gmap Z (option datetime)),
             k ∉ l.*1 -> foldl (fun m row => <[row.1 := row.2]> m) m l !! k = m !! k).
  { induction l as [|[k' v'] l IHl]; intros m Hk; [reflexivity|].
    cbn [foldl]. cbn in Hk. apply not_elem_of_cons in Hk as [Hne Hk].
    rewrite IHl by exact Hk. cbn. now apply lookup_insert_ne. }
  revert m0. induction rows as [|[k' v'] rest IH]; intros m0 Hnd Hin.
  - now apply not_elem_of_nil in Hin.
  - cbn in Hnd. apply NoDup_cons in Hnd as [Hk Hnd]. cbn [foldl].
    apply elem_of_cons in Hin as [Heq | Hin].
    + injection Heq as -> ->. rewrite Hout by exact Hk. cbn. apply lookup_insert_eq.
    + now apply IH.
Qed.

Lemma null_le_total : Total null_le.
Proof. intros [a|] [b|]; simpl; try tauto. lia. Qed.

Lemma null_le_trans : Transitive null_le.
Proof. intros [a|] [b|] [c|]; simpl; try tauto. lia. Qed.

#[global] Instance last_review_desc_total : Total last_review_desc.
Proof. intros a b. unfold last_review_desc. destruct (null_le_total
  (last_review_requested_at a) (last_review_requested_at b)); tauto. Qed.

#[global] Instance last_review_desc_trans : Transitive last_review_desc.
Proof.
  intros a b c Hab Hbc. unfold last_review_desc in *.
  exact (null_le_trans _ _ _ Hbc Hab).
Qed.

Lemma filter_Forall_id {A} (P : A -> Prop) `{forall x, Decision (P x)} (l : list A) :
  Forall P l -> filter P l = l.
Proof.
  induction 1 as [|x l Hx _ IH]; [reflexivity|].
  rewrite filter_cons_True by exact Hx. now rewrite IH.
Qed.

Lemma reviewed_page_ids_spec (d : Database) (k : Z) :
  k ∈ reviewed_page_ids d <-> exists r, r ∈ reviews d /\ revision_page_fk_relation r = k.
Proof.
  unfold reviewed_page_ids. rewrite elem_of_remove_dups, list_elem_of_fmap.
  split; intros (r & H1 & H2); exists r; auto.
Qed.

Lemma latest_reviews_rows (d : Database) :
  latest_reviews d =
  (fun k => (k, Max (review_created_at <$>
                       filter (fun r => revision_page_fk_relation r = k) (reviews d))))
    <$> reviewed_page_ids d.
Proof.
  unfold latest_reviews. cbv zeta.
  rewrite filter_Forall_id; [reflexivity|].
  apply Forall_forall. intros r Hr. apply reviewed_page_ids_spec. now exists r.
Qed.

Lemma latest_reviews_keys (d : Database) : (latest_reviews d).*1 = reviewed_page_ids d.
Proof.
  rewrite latest_reviews_rows, <- list_fmap_compose.
  rewrite <- (list_fmap_id (reviewed_page_ids d)) at 2.
  apply list_fmap_ext. now intros.
Qed.

Lemma latest_reviews_map_lookup (d : Database) (k : Z) :
  k ∈ reviewed_page_ids d ->
  latest_reviews_map d !! k =
  Some (Max (review_created_at <$>
               filter (fun r => revision_page_fk_relation r = k) (reviews d))).
Proof.
  intros Hk. unfold latest_reviews_map. apply foldl_insert_lookup.
  - rewrite latest_reviews_keys. apply NoDup_remove_dups.
  - rewrite latest_reviews_rows. apply list_elem_of_fmap. now exists k.
Qed.

(** The annotation of a page that has reviews is the latest creation time
    among them. *)
Lemma annotate_reviewed_page (d : Database) (p : Page) :
  page_pk p ∈ reviewed_page_ids d ->
  exists t,
    last_review_requested_at (annotate_last_review_requested_at d p) = Some t /\
    (exists r, r ∈ reviews d /\ revision_page_fk_relation r = page_pk p /\
               review_created_at r = t) /\
    (forall r, r ∈ reviews d -> revision_page_fk_relation r = page_pk p ->
               review_created_at r <= t).
Proof.
  intros Hk. pose proof (latest_reviews_map_lookup d _ Hk) as Hm.
  apply elem_of_map_to_list in Hm.
  apply Case_elem_of in Hm; [|apply NoDup_fst_map_to_list].
  cbn [annotate_last_review_requested_at last_review_requested_at]. rewrite Hm.
  apply reviewed_page_ids_spec in Hk as (r0 & Hr0 & Hfk0).
  destruct (Max_Some (review_created_at <$>
              filter (fun r => revision_page_fk_relation r = page_pk p) (reviews d)))
    as (t & Ht & Hin & Hle).
  { intros Hnil. apply fmap_nil_inv in Hnil.
    assert (Hmem : r0 ∈ filter (fun r => revision_page_fk_relation r = page_pk p)
                     (reviews d)) by (apply list_elem_of_filter; auto).
    rewrite Hnil in Hmem. now apply not_elem_of_nil in Hmem. }
  exists t. split; [exact Ht|]. split.
  - apply list_elem_of_fmap in Hin as (r & -> & Hr).
    apply list_elem_of_filter in Hr as [Hfk Hr]. now exists r.
  - intros r Hr Hfk. apply Hle. apply list_elem_of_fmap_2.
    apply list_elem_of_filter. auto.
Qed.

Lemma sorted_annotations (l : list AnnotatedPage) :
  Forall (fun ap => is_Some (last_review_requested_at ap)) l ->
  StronglySorted last_review_desc l ->
  exists ts,
    last_review_requested_at <$> l = Some <$> ts /\
    StronglySorted (fun x y => y <= x) ts.
Proof.
  induction l as [|ap l IH]; intros Hsome Hsorted.
  - exists []. split; [reflexivity | constructor].
  - apply Forall_cons in Hsome as [[t Ht] Hsome].
    apply StronglySorted_inv in Hsorted as [Hsorted Hhd].
    destruct (IH Hsome Hsorted) as (ts & Hts & Hsts).
    exists (t :: ts). split.
    + cbn. now rewrite Ht, Hts.
    + constructor; [exact Hsts|].
      apply Forall_forall. intros y Hy.
      assert (Hmem : Some y ∈ last_review_requested_at <$> l).
      { rewrite Hts. now apply list_elem_of_fmap_2. }
      apply list_elem_of_fmap in Hmem as (b & Hb & Hbl).
      pose proof (proj1 (Forall_forall _ _) Hhd b Hbl) as Hdesc.
      unfold last_review_desc in Hdesc. rewrite <- Hb, Ht in Hdesc. exact Hdesc.
Qed.

Lemma page_annotate (d : Database) (l : list Page) :
  page <$> (annotate_last_review_requested_at d <$> l) = l.
Proof.
  rewrite <- list_fmap_compose. rewrite <- (list_fmap_id l) at 2.
  apply list_fmap_ext. now intros.
Qed.

(** C5. [get_pages_with_reviews_for_user] returns the pages the user may
    edit that have at least one review, each as often as the host's
    queryset of editable pages holds it and no other page; every row of the
    result carries as [last_review_requested_at] the creation time of one
    of the page's reviews that no review of the page exceeds; and the
    annotations of the result, read in order, never increase. *)
Theorem pages_with_reviews_editable_latest_first `{Host} (d : Database) (user : User) :
  let result := BaseReview_get_pages_with_reviews_for_user d user in
  page <$> result ≡ₚ
    filter (fun p => page_pk p ∈ revision_page_fk_relation <$> reviews d)
      (editable_pages user) /\
  (forall p, p ∈ page <$> result <->
     p ∈ editable_pages user /\
     exists r, r ∈ reviews d /\ revision_page_fk_relation r = page_pk p) /\
  Forall
    (fun ap =>
       exists t,
         last_review_requested_at ap = Some t /\
         (exists r, r ∈ reviews d /\
                    revision_page_fk_relation r = page_pk (page ap) /\
                    review_created_at r = t) /\
         (forall r, r ∈ reviews d ->
                    revision_page_fk_relation r = page_pk (page ap) ->
                    review_created_at r <= t))
    result /\
  exists ts,
    last_review_requested_at <$> result = Some <$> ts /\
    StronglySorted (fun x y => y <= x) ts.
Proof.
  cbv zeta. unfold BaseReview_get_pages_with_reviews_for_user. cbv zeta.
  set (reviewed := filter (fun p => page_pk p ∈ reviewed_page_ids d) (editable_pages user)).
  assert (Hperm : page <$> merge_sort last_review_desc
                    (annotate_last_review_requested_at d <$> reviewed) ≡ₚ reviewed).
  { rewrite merge_sort_Permutation. now rewrite page_annotate. }
  assert (Hall : Forall
    (fun ap =>
       exists t,
         last_review_requested_at ap = Some t /\
         (exists r, r ∈ reviews d /\
                    revision_page_fk_relation r = page_pk (page ap) /\
                    review_created_at r = t) /\
         (forall r, r ∈ reviews d ->
                    revision_page_fk_relation r = page_pk (page ap) ->
                    review_created_at r <= t))
    (merge_sort last_review_desc (annotate_last_review_requested_at d <$> reviewed))).
  { rewrite merge_sort_Permutation. apply Forall_fmap, Forall_forall.
    intros p Hp. apply list_elem_of_filter in Hp as [Hk _].
    exact (annotate_reviewed_page d p Hk). }
  split.
  { rewrite Hperm. subst reviewed.
    erewrite list_filter_iff; [reflexivity|].
    intros p. unfold reviewed_page_ids. apply elem_of_remove_dups. }
  split.
  { intros p. rewrite Hperm. subst reviewed.
    rewrite list_elem_of_filter, reviewed_page_ids_spec. tauto. }
  split; [exact Hall|].
  apply sorted_annotations.
  - eapply Forall_impl; [exact Hall|]. intros ap (t & Ht & _). now exists t.
  - apply (StronglySorted_merge_sort last_review_desc).
Qed.

(** ** The model on concrete rows *)

Example generate_token_sample :
  (@generate_token sample_host (mk_world sample_db)).1 = Return "dkry5cjqx4bipw3a".
Proof. reflexivity. Qed.

Example Reviewer_save_sample :
  let r := @Reviewer_save sample_host reviewer_unsaved (mk_world sample_db) in
  (response_token <$> (match r.1 with Return s => Some s | Raise _ => None end),
   view_token <$> (match r.1 with Return s => Some s | Raise _ => None end),
   entropy_cursor r.2, length (reviewers (db r.2)))
  = (Some "dkry5cjqx4bipw3a", Some "hov29gnu18fmt07e", 32%nat, 4%nat).
Proof. reflexivity. Qed.

Example Reviewer_save_again_sample :
  (@Reviewer_save sample_host reviewer_bob (mk_world sample_db)).1 = Return reviewer_bob.
Proof. reflexivity. Qed.

Example Reviewer_clean_sample :
  Reviewer_clean reviewer_nobody =
    Raise (ValidationError "A reviewer must have either an email address or a user account")
  /\ Reviewer_clean reviewer_external = Return tt
  /\ Reviewer_clean reviewer_bob = Return tt
  /\ Reviewer_clean reviewer_both = Return tt.
Proof. repeat split. Qed.

Example Reviewer_get_email_address_sample :
  Reviewer_get_email_address reviewer_both = Return "robert@example.org"
  /\ Reviewer_get_email_address reviewer_bob = Return "bob@example.org"
  /\ @Reviewer_get_name sample_host reviewer_both = "user-bob@example.org"
  /\ @Reviewer_get_name sample_host reviewer_external = "eve@example.org".
Proof. repeat split. Qed.

Example send_request_emails_sample :
  mail_recipients <$>
    outbox (@BaseReview_send_request_emails sample_host sample_review
              (mk_world sample_db)).2
  = [["bob@example.org"]; ["eve@example.org"]].
Proof. reflexivity. Qed.

Example send_notification_sample :
  mail_recipients <$>
    outbox (@Response_send_notification_to_submitter sample_host
              (mk_response 1 reviewer_bob 30) (mk_world sample_db)).2
  = [["alice@example.org"]]
  /\ @Response_send_notification_to_submitter sample_host
       (mk_response 2 reviewer_elsewhere 10) (mk_world sample_db)
     = (Return tt, mk_world sample_db).
Proof. split; reflexivity. Qed.

Example get_responses_sample :
  response_pk <$> BaseReview_get_responses db_with_responses sample_review = [4; 3; 1].
Proof. reflexivity. Qed.

Example get_pages_with_reviews_for_user_sample :
  (fun ap => (page_pk (page ap), last_review_requested_at ap))
    <$> @BaseReview_get_pages_with_reviews_for_user sample_host db_with_pages alice
  = [(10, Some 20); (12, Some 9)]
  /\ @BaseReview_get_pages_with_reviews_for_user sample_host db_with_pages bob = [].
Proof. split; vm_compute; reflexivity. Qed.

Example review_status_sample :
  let w := @perform_all sample_host
             [OpSendRequestEmails sample_review;
              OpReviewCreate {| revision_pk := 102; object_id := 11 |} bob 40;
              OpReviewerSave reviewer_unsaved]
             (mk_world sample_db) in
  (review_status w 1, review_status w 2, review_status w 3, review_status w 4)
  = (Some "open", Some "closed", Some "open", None).
Proof. vm_compute. reflexivity. Qed.

(** * Further properties *)

(** ** Where review requests stop *)

Lemma clean_fails_iff (r : Reviewer) :
  Reviewer_clean r <> Return tt <-> reviewer_user r = None /\ reviewer_email r = "".
Proof.
  unfold Reviewer_clean.
  destruct (reviewer_user r) as [u|]; destruct (reviewer_email r) as [|c s]; simpl;
    split; try congruence; try tauto.
  - intros [Hu _]. discriminate.
  - intros [Hu _]. discriminate.
  - intros [_ He]. discriminate.
Qed.

Lemma clean_all_or_some (rs : list Reviewer) :
  Forall (fun r => Reviewer_clean r = Return tt) rs \/
  Exists (fun r => Reviewer_clean r <> Return tt) rs.
Proof.
  induction rs as [|r rs [IH | IH]].
  - left. constructor.
  - destruct (Reviewer_clean r) as [[]|e] eqn:Hc.
    + left. now constructor.
    + right. apply Exists_cons_hd. congruence.
  - right. now apply Exists_cons_tl.
Qed.

(** The loop over a list that starts with reviewers passing [clean] sends
    their messages and goes on with the rest. *)
Lemma for_each_send_request_email_app `{Host} (good rest : list Reviewer) (w : World) :
  Forall (fun r => Reviewer_clean r = Return tt) good ->
  exists ms,
    Forall2 request_mail_of good ms /\
    for_each Reviewer_send_request_email (good ++ rest) w =
    for_each Reviewer_send_request_email rest (with_outbox w (outbox w ++ ms)).
Proof.
  intros Hgood. revert w. induction Hgood as [|r good Hr _ IH]; intros w.
  - exists []. split; [constructor|]. cbn [app].
    unfold with_outbox. rewrite app_nil_r. now destruct w.
  - destruct (clean_get_email_address r Hr) as [a Ha].
    destruct (IH (with_outbox w (outbox w ++ [request_mail r a]))) as (ms & Hms & Hrun).
    exists (request_mail r a :: ms). split.
    + constructor; [exists a; auto | exact Hms].
    + cbn [app for_each]. unfold bind. rewrite (send_request_email_returns r a w Ha).
      rewrite Hrun. unfold with_outbox; cbn [db entropy_cursor outbox].
      now rewrite <- app_assoc.
Qed.

(** X1. [BaseReview.send_request_emails] raises exactly when some reviewer
    of the review other than the submitter's has neither a user nor an
    email, and then what it raises is [AttributeError]; otherwise it
    returns. *)
Theorem send_request_emails_raises_iff_unidentified `{Host} (self : Review) (w : World) :
  let recipients := exclude_user (submitter self) (review_reviewers (db w) self) in
  ((exists e w', BaseReview_send_request_emails self w = (Raise e, w')) <->
     Exists (fun r => reviewer_user r = None /\ reviewer_email r = "") recipients) /\
  (forall e w', BaseReview_send_request_emails self w = (Raise e, w') ->
     exists msg, e = AttributeError msg) /\
  ((BaseReview_send_request_emails self w).1 = Return tt <->
     Forall (fun r => reviewer_user r <> None \/ reviewer_email r <> "") recipients).
Proof.
  cbv zeta. unfold BaseReview_send_request_emails.
  set (rs := exclude_user (submitter self) (review_reviewers (db w) self)).
  assert (Hbad : Exists (fun r => Reviewer_clean r <> Return tt) rs <->
                 Exists (fun r => reviewer_user r = None /\ reviewer_email r = "") rs).
  { split; intros Hx; (eapply Exists_impl; [exact Hx|]); intros r; apply clean_fails_iff. }
  assert (Hgood : Forall (fun r => Reviewer_clean r = Return tt) rs <->
                  Forall (fun r => reviewer_user r <> None \/ reviewer_email r <> "") rs).
  { split; intros Hx; (eapply Forall_impl; [exact Hx|]); intros r.
    - intros Hc. destruct (reviewer_user r) as [u|] eqn:Hu; [left; congruence|].
      right. intros He. apply (proj2 (clean_fails_iff r)); [|exact Hc].
      rewrite Hu. auto.
    - intros Hid. destruct (Reviewer_clean r) as [[]|e] eqn:Hc; [reflexivity|].
      assert (Hf : Reviewer_clean r <> Return tt) by congruence.
      apply clean_fails_iff in Hf as [Hu He]. destruct Hid; contradiction. }
  destruct (clean_all_or_some rs) as [Hall | Hex].
  - destruct (for_each_send_request_email rs w Hall) as (ms & Hrun & _).
    rewrite Hrun. split; [|split].
    + split; [intros (e & w' & Heq); discriminate|].
      intros Hex. apply Hbad in Hex. exfalso.
      apply Exists_exists in Hex as (r & Hr & Hnc).
      apply Hnc. exact (proj1 (Forall_forall _ _) Hall r Hr).
    + intros e w' Heq. discriminate.
    + split; [intros _; now apply Hgood | reflexivity].
  - destruct (for_each_send_request_email_raises rs w Hex) as (msg & w' & Hrun).
    rewrite Hrun. split; [|split].
    + split; [intros _; now apply Hbad | intros _; eauto].
    + intros e w'' Heq. injection Heq as <- _. eauto.
    + split; [intros Heq; discriminate|].
      intros Hall. apply Hgood in Hall. exfalso.
      apply Exists_exists in Hex as (r & Hr & Hnc).
      apply Hnc. exact (proj1 (Forall_forall _ _) Hall r Hr).
Qed.

(** X2. No roll-back and no skipping: when the reviewers to notify are
    [good ++ bad :: rest], the ones in [good] having a user or an email and
    [bad] having neither, the call raises [AttributeError] after sending
    the request messages of [good], one for one and in order, and nothing
    for [bad] and [rest]. *)
Theorem send_request_emails_sends_up_to_unidentified `{Host}
    (self : Review) (w : World) (good rest : list Reviewer) (bad : Reviewer) :
  exclude_user (submitter self) (review_reviewers (db w) self)
    = (good ++ bad :: rest)%list ->
  Forall (fun r => Reviewer_clean r = Return tt) good ->
  Reviewer_clean bad <> Return tt ->
  exists msg ms,
    BaseReview_send_request_emails self w =
      (Raise (AttributeError msg), with_outbox w (outbox w ++ ms)) /\
    Forall2 request_mail_of good ms.
Proof.
  intros Hrs Hgood Hbad. unfold BaseReview_send_request_emails. rewrite Hrs.
  destruct (for_each_send_request_email_app good (bad :: rest) w Hgood)
    as (ms & Hms & Hrun).
  destruct (not_clean_get_email_address bad Hbad) as [msg Hmsg].
  exists msg, ms. split; [|exact Hms].
  rewrite Hrun. cbn [for_each]. unfold bind.
  now rewrite (send_request_email_raises bad _ _ Hmsg).
Qed.

Lemma send_request_emails_sends_up_to_unidentified_witness :
  exists msg ms,
    @BaseReview_send_request_emails sample_host sample_review (mk_world db_nobody_after_bob) =
      (Raise (AttributeError msg),
       with_outbox (mk_world db_nobody_after_bob)
         (outbox (mk_world db_nobody_after_bob) ++ ms)) /\
    Forall2 (@request_mail_of sample_host) [reviewer_bob] ms.
Proof.
  apply (@send_request_emails_sends_up_to_unidentified sample_host sample_review
           (mk_world db_nobody_after_bob) [reviewer_bob] [reviewer_external]
           reviewer_nobody).
  - reflexivity.
  - repeat constructor.
  - vm_compute. discriminate.
Defined.

Lemma for_each_send_request_email_world `{Host} (rs : list Reviewer) (w : World) :
  exists n ms,
    (for_each Reviewer_send_request_email rs w).2 = with_outbox w (outbox w ++ ms) /\
    Forall2 request_mail_of (take n rs) ms.
Proof.
  revert w. induction rs as [|r rs IH]; intros w.
  - exists 0%nat, []. split; [|constructor].
    cbn. unfold with_outbox. rewrite app_nil_r. now destruct w.
  - cbn [for_each]. unfold bind.
    destruct (Reviewer_get_email_address r) as [a|e] eqn:Ha.
    + rewrite (send_request_email_returns r a w Ha).
      destruct (IH (with_outbox w (outbox w ++ [request_mail r a])))
        as (n & ms & Hw & Hms).
      exists (S n), (request_mail r a :: ms). split.
      * rewrite Hw. unfold with_outbox; cbn [db entropy_cursor outbox].
        now rewrite <- app_assoc.
      * cbn [take]. constructor; [exists a; auto | exact Hms].
    + rewrite (send_request_email_raises r e w Ha).
      exists 0%nat, []. split; [|constructor].
      cbn. unfold with_outbox. rewrite app_nil_r. now destruct w.
Qed.

(** X3. Whatever [BaseReview.send_request_emails] ends in, it changes the
    world only by appending to the outbox, and what it appends are the
    request messages of the first so many reviewers of this review that
    are not the submitter's, one for one and in order: the tables and the
    entropy stream are untouched, the messages already in the outbox stay,
    and neither the submitter's reviewer record nor a reviewer of another
    review is ever written to. *)
Theorem send_request_emails_only_appends_requests `{Host} (self : Review) (w : World) :
  exists n ms,
    (BaseReview_send_request_emails self w).2 = with_outbox w (outbox w ++ ms) /\
    Forall2 request_mail_of
      (take n (exclude_user (submitter self) (review_reviewers (db w) self))) ms /\
    Forall (fun r => review_pk (reviewer_review r) = review_pk self /\
                     r ∈ reviewers (db w) /\
                     ~ reviewer_of_user (submitter self) r)
      (take n (exclude_user (submitter self) (review_reviewers (db w) self))).
Proof.
  unfold BaseReview_send_request_emails.
  destruct (for_each_send_request_email_world
              (exclude_user (submitter self) (review_reviewers (db w) self)) w)
    as (n & ms & Hw & Hms).
  exists n, ms. split; [exact Hw|]. split; [exact Hms|].
  apply Forall_forall. intros r Hr.
  apply elem_of_take in Hr as (i & Hr & _).
  apply list_elem_of_lookup_2 in Hr. apply exclude_user_spec in Hr as [Hr Hns].
  unfold review_reviewers in Hr. apply list_elem_of_filter in Hr as [Hpk Hr]. auto.
Qed.

(** ** A reviewer's address *)

(** X4. [Reviewer.clean] accepts a reviewer exactly when
    [get_email_address] finds an address for it, and exactly when
    [send_request_email] returns; for a reviewer [clean] rejects,
    [send_request_email] raises [AttributeError] and leaves the world as it
    was. *)
Theorem clean_iff_request_email_returns `{Host} (r : Reviewer) (w : World) :
  (Reviewer_clean r = Return tt <-> exists a, Reviewer_get_email_address r = Return a) /\
  (Reviewer_clean r = Return tt <-> (Reviewer_send_request_email r w).1 = Return tt) /\
  (Reviewer_clean r <> Return tt ->
     exists msg, Reviewer_send_request_email r w = (Raise (AttributeError msg), w)).
Proof.
  assert (Hrej : Reviewer_clean r <> Return tt ->
                 exists msg, Reviewer_send_request_email r w = (Raise (AttributeError msg), w)).
  { intros Hbad. destruct (not_clean_get_email_address r Hbad) as [msg Hmsg].
    exists msg. now apply send_request_email_raises. }
  split; [|split; [|exact Hrej]].
  - split; [apply clean_get_email_address|].
    intros [a Ha]. destruct (Reviewer_clean r) as [[]|e] eqn:Hc; [reflexivity|].
    assert (Hbad : Reviewer_clean r <> Return tt) by congruence.
    destruct (not_clean_get_email_address r Hbad) as [msg Hmsg]. congruence.
  - split.
    + intros Hc. destruct (clean_get_email_address r Hc) as [a Ha].
      now rewrite (send_request_email_returns r a w Ha).
    + intros Hret. destruct (Reviewer_clean r) as [[]|e] eqn:Hc; [reflexivity|].
      destruct Hrej as [msg Hmsg]; [discriminate|].
      rewrite Hmsg in Hret. discriminate.
Qed.

(** X5. Passing [clean] does not mean having an address: for a reviewer
    with a user whose email is empty and with an empty email field,
    [clean] returns, and [send_request_email] returns after handing the
    transport one message whose only recipient is the empty string. *)
Theorem request_email_to_empty_address `{Host} (r : Reviewer) (u : User) (w : World) :
  reviewer_user r = Some u ->
  reviewer_email r = "" ->
  user_email u = "" ->
  Reviewer_clean r = Return tt /\
  exists m,
    Reviewer_send_request_email r w = (Return tt, with_outbox w (outbox w ++ [m])) /\
    mail_recipients m = [""].
Proof.
  intros Hu He Hue.
  assert (Ha : Reviewer_get_email_address r = Return "").
  { unfold Reviewer_get_email_address. now rewrite He, Hu, Hue. }
  split.
  - unfold Reviewer_clean. now rewrite Hu.
  - exists (request_mail r ""). split; [|reflexivity].
    now apply send_request_email_returns.
Qed.

Lemma request_email_to_empty_address_witness :
  Reviewer_clean reviewer_of_carol = Return tt /\
  exists m,
    @Reviewer_send_request_email sample_host reviewer_of_carol (mk_world sample_db) =
      (Return tt,
       with_outbox (mk_world sample_db) (outbox (mk_world sample_db) ++ [m])) /\
    mail_recipients m = [""].
Proof.
  apply (@request_email_to_empty_address sample_host reviewer_of_carol carol
           (mk_world sample_db)); reflexivity.
Defined.

(** ** Subjects and bodies *)

Lemma lstrip_first (s : string) (c : ascii) :
  first_char (lstrip s) = Some c -> isspace c = false.
Proof.
  induction s as [|c0 s IH]; simpl; [discriminate|].
  destruct (isspace c0) eqn:Hc0; [exact IH|].
  simpl. intros [= <-]. exact Hc0.
Qed.

Lemma rstrip_first (s : string) (c : ascii) :
  first_char (rstrip s) = Some c -> first_char s = Some c.
Proof.
  destruct s as [|c0 s]; simpl; [discriminate|].
  destruct (rstrip s); [destruct (isspace c0)|]; simpl; congruence.
Qed.

Lemma rstrip_last (s : string) (c : ascii) :
  last_char (rstrip s) = Some c -> isspace c = false.
Proof.
  induction s as [|c0 s IH]; simpl; [discriminate|].
  destruct (rstrip s) as [|c1 t] eqn:Hr.
  - destruct (isspace c0) eqn:Hc0; simpl; [discriminate|].
    intros [= <-]. exact Hc0.
  - exact IH.
Qed.

Lemma strip_trimmed (s : string) : trimmed (strip s).
Proof.
  unfold trimmed, strip. split; intros c Hc.
  - apply rstrip_first in Hc. now apply lstrip_first in Hc.
  - now apply rstrip_last in Hc.
Qed.

(** X6. The subject and the body of every review request and of every
    response notification begin and end with a character that is not
    whitespace (or are empty), whatever the templates render. *)
Theorem mail_subject_and_body_trimmed `{Host} (r : Reviewer) (a : string)
    (response : Response) :
  trimmed (mail_subject (request_mail r a)) /\
  trimmed (mail_body (request_mail r a)) /\
  trimmed (mail_subject (response_mail response)) /\
  trimmed (mail_body (response_mail response)).
Proof. repeat split; apply strip_trimmed. Qed.

(** ** What a save stores *)

Lemma Model_save_stores (self : Reviewer) (w : World) :
  exists self' w',
    Model_save self w = (Return self', w') /\
    self' ∈ reviewers (db w') /\
    is_Some (reviewer_pk self') /\
    (forall r, r ∈ reviewers (db w) -> reviewer_pk r <> reviewer_pk self' ->
               r ∈ reviewers (db w')) /\
    (length (reviewers (db w)) <= length (reviewers (db w')) <=
       S (length (reviewers (db w))))%nat.
Proof.
  unfold Model_save. destruct (reviewer_pk self) as [pk|] eqn:Hpk.
  - destruct (existsb _ _) eqn:Hex.
    + eexists _, _. split; [reflexivity|]. cbn [set_reviewers db reviewers].
      split; [|split; [|split]].
      * apply existsb_exists in Hex as (r & Hr & Hb).
        apply list_elem_of_In in Hr. apply bool_decide_eq_true in Hb.
        apply list_elem_of_fmap. exists r. split; [|exact Hr].
        now rewrite bool_decide_eq_true_2.
      * rewrite Hpk. eauto.
      * intros r Hr Hne. apply list_elem_of_fmap. exists r. split; [|exact Hr].
        rewrite bool_decide_eq_false_2; [reflexivity|]. congruence.
      * rewrite length_fmap. lia.
    + eexists _, _. split; [reflexivity|]. cbn [set_reviewers db reviewers].
      split; [|split; [|split]].
      * apply elem_of_app. right. apply list_elem_of_here.
      * rewrite Hpk. eauto.
      * intros r Hr _. apply elem_of_app. now left.
      * rewrite length_app. simpl. lia.
  - eexists _, _. split; [reflexivity|]. cbn [set_reviewers db reviewers].
    split; [|split; [|split]].
    + apply elem_of_app. right. apply list_elem_of_here.
    + cbn. eauto.
    + intros r Hr _. apply elem_of_app. now left.
    + rewrite length_app. simpl. lia.
Qed.

Lemma next_reviewer_pk_fresh (rows : list Reviewer) (r : Reviewer) :
  r ∈ rows -> reviewer_pk r <> Some (next_reviewer_pk rows).
Proof.
  intros Hr Heq.
  assert (Hlt : forall pk, reviewer_pk r = Some pk -> pk < next_reviewer_pk rows).
  { unfold next_reviewer_pk. clear Heq.
    induction Hr as [r rows | r r' rows _ IH]; intros pk Hpk; simpl.
    - rewrite Hpk. simpl. lia.
    - specialize (IH pk Hpk). lia. }
  specialize (Hlt _ Heq). lia.
Qed.

Lemma Model_save_frame (self : Reviewer) (w : World) :
  exists self' w',
    Model_save self w = (Return self', w') /\
    reviewer_review self' = reviewer_review self /\
    reviewer_user self' = reviewer_user self /\
    reviewer_email self' = reviewer_email self /\
    (reviewer_pk self' =
       match reviewer_pk self with
       | Some pk => Some pk
       | None => Some (next_reviewer_pk (reviewers (db w)))
       end) /\
    reviews (db w') = reviews (db w) /\
    annotation_ranges (db w') = annotation_ranges (db w) /\
    responses (db w') = responses (db w) /\
    outbox w' = outbox w.
Proof.
  unfold Model_save. destruct (reviewer_pk self) as [pk|] eqn:Hpk.
  - destruct (existsb _ _); eexists _, _; (split; [reflexivity|]);
      rewrite ?Hpk; repeat split.
  - eexists _, _. split; [reflexivity|]. repeat split.
Qed.

Lemma Reviewer_save_as_Model_save `{Host} (self : Reviewer) (w : World) :
  exists rt vt n,
    Reviewer_save self w = Model_save (with_tokens self rt vt) (after_draws n w).
Proof.
  assert (Hw : after_draws 0 w = w) by (unfold after_draws; now destruct w).
  unfold Reviewer_save.
  destruct (truthy (response_token self)); destruct (truthy (view_token self));
    simpl negb; cbv iota; unfold bind, ret;
    repeat (rewrite generate_token_draws; cbv beta iota);
    rewrite ?after_draws_after_draws.
  - exists (response_token self), (view_token self), 0%nat. now rewrite Hw.
  - eexists _, _, _. reflexivity.
  - eexists _, _, _. reflexivity.
  - eexists _, _, _. reflexivity.
Qed.

(** X7. [Reviewer.save] stores what it returns: the returned reviewer has
    a key and is a row of the reviewer table afterwards, with the review,
    user and email it was given; a reviewer saved for the first time gets a
    key no row had; rows under other keys stay; and the review, response
    and range tables and the outbox are as before. *)
Theorem Reviewer_save_stores_returned_row `{Host} (self : Reviewer) (w : World) :
  exists self' w',
    Reviewer_save self w = (Return self', w') /\
    self' ∈ reviewers (db w') /\
    is_Some (reviewer_pk self') /\
    reviewer_review self' = reviewer_review self /\
    reviewer_user self' = reviewer_user self /\
    reviewer_email self' = reviewer_email self /\
    (forall pk, reviewer_pk self = Some pk -> reviewer_pk self' = Some pk) /\
    (reviewer_pk self = None ->
       forall r, r ∈ reviewers (db w) -> reviewer_pk r <> reviewer_pk self') /\
    (forall r, r ∈ reviewers (db w) -> reviewer_pk r <> reviewer_pk self' ->
               r ∈ reviewers (db w')) /\
    reviews (db w') = reviews (db w) /\
    annotation_ranges (db w') = annotation_ranges (db w) /\
    responses (db w') = responses (db w) /\
    outbox w' = outbox w.
Proof.
  destruct (Reviewer_save_as_Model_save self w) as (rt & vt & n & Hsave).
  destruct (Model_save_stores (with_tokens self rt vt) (after_draws n w))
    as (self' & w' & Hm & Hin & Hpk & Hkeep & _).
  destruct (Model_save_frame (with_tokens self rt vt) (after_draws n w))
    as (s2 & w2 & Hm2 & Hrev & Hu & He & Hk & Hr & Ha & Hresp & Ho).
  rewrite Hm in Hm2. injection Hm2 as <- <-.
  cbn [with_tokens reviewer_review reviewer_user reviewer_email reviewer_pk
       after_draws db outbox] in *.
  exists self', w'. rewrite Hsave.
  split; [exact Hm|]. split; [exact Hin|]. split; [exact Hpk|].
  split; [exact Hrev|]. split; [exact Hu|]. split; [exact He|].
  split. { intros pk Hself. now rewrite Hk, Hself. }
  split. { intros Hnone r Hr0. rewrite Hk, Hnone. now apply next_reviewer_pk_fresh. }
  split; [exact Hkeep|]. auto.
Qed.

(** X8. A reviewer saved with both tokens empty takes exactly 32 draws
    from the entropy stream: the response token is spelled by the first 16
    and the view token by the next 16, so no draw is shared between the
    two. A reviewer saved with both tokens set takes none. *)
Theorem Reviewer_save_draws `{Host} (self : Reviewer) (w : World) :
  (response_token self = "" -> view_token self = "" ->
     exists self' w',
       Reviewer_save self w = (Return self', w') /\
       response_token self' = join_chars (drawn (entropy_cursor w) 16) /\
       view_token self' = join_chars (drawn (16 + entropy_cursor w) 16) /\
       entropy_cursor w' = (32 + entropy_cursor w)%nat) /\
  (response_token self <> "" -> view_token self <> "" ->
     exists self' w',
       Reviewer_save self w = (Return self', w') /\
       entropy_cursor w' = entropy_cursor w).
Proof.
  destruct (Reviewer_save_returns self w)
    as (self' & w' & Hsave & Hrt & Hvt & Hc & _).
  split.
  - intros Hr Hv. apply truthy_false in Hr, Hv. rewrite Hr in Hrt, Hvt, Hc.
    rewrite Hv in Hvt, Hc. exists self', w'. auto.
  - intros Hr Hv. apply truthy_true in Hr, Hv. rewrite Hr, Hv in Hc.
    exists self', w'. auto.
Qed.

(** ** Tokens and draws *)

Lemma join_chars_inj (cs1 cs2 : list ascii) : join_chars cs1 = join_chars cs2 -> cs1 = cs2.
Proof.
  unfold join_chars. intros Heq.
  rewrite <- (String.list_ascii_of_string_of_list_ascii cs1),
          <- (String.list_ascii_of_string_of_list_ascii cs2).
  now rewrite Heq.
Qed.

Lemma drawn_lookup `{Host} (i n k : nat) :
  (k < n)%nat ->
  drawn i n !! k = Some (nth (randbelow (i + k) 36) token_alphabet "000"%char).
Proof.
  intros Hk. unfold drawn. rewrite list_lookup_fmap, lookup_seq_lt by exact Hk.
  reflexivity.
Qed.

(** X9. Two generated tokens are equal exactly when the 16 draws behind
    them agree one by one: [generate_token] loses nothing of its draws, so
    tokens collide only as often as whole sequences of draws do. *)
Theorem generate_token_equal_iff_draws_equal (h1 h2 : Host) (w1 w2 : World) :
  (@generate_token h1 w1).1 = (@generate_token h2 w2).1 <->
  forall k, (k < 16)%nat ->
    @randbelow h1 (entropy_cursor w1 + k) 36 = @randbelow h2 (entropy_cursor w2 + k) 36.
Proof.
  rewrite !generate_token_draws. cbn [fst]. split.
  - intros Heq k Hk.
    apply (f_equal (fun r => match r with Return t => t | Raise _ => "" end)) in Heq.
    cbv beta iota in Heq. apply join_chars_inj in Heq.
    pose proof (@drawn_lookup h1 (entropy_cursor w1) 16 k Hk) as H1.
    pose proof (@drawn_lookup h2 (entropy_cursor w2) 16 k Hk) as H2.
    rewrite Heq, H2 in H1. injection H1 as H1. symmetry.
    apply token_alphabet_nth_inj; [apply randbelow_lt; lia .. | exact H1].
  - intros Heq. do 2 f_equal. unfold drawn. apply list_fmap_ext.
    intros k x Hx. apply lookup_seq in Hx as [-> Hk]. cbn [Nat.add].
    now rewrite (Heq k Hk).
Qed.

Lemma index_of_nth (c : ascii) (cs : list ascii) (d : ascii) :
  c ∈ cs -> (index_of c cs < length cs)%nat /\ nth (index_of c cs) cs d = c.
Proof.
  induction cs as [|c' cs IH]; intros Hc.
  - now apply not_elem_of_nil in Hc.
  - cbn [index_of]. destruct (bool_decide (c = c')) eqn:Hb.
    + apply bool_decide_eq_true in Hb. subst. simpl. split; [lia | reflexivity].
    + apply bool_decide_eq_false in Hb.
      apply elem_of_cons in Hc as [Hc | Hc]; [contradiction|].
      destruct (IH Hc) as [Hlt Hnth]. simpl. split; [lia | exact Hnth].
Qed.

Lemma drawn_with_draws (cs : list ascii) :
  Forall (fun c => c ∈ token_alphabet) cs ->
  @drawn (host_with_draws ((fun c => index_of c token_alphabet) <$> cs)) 0 (length cs) = cs.
Proof.
  intros Hcs. apply list_eq. intros k.
  destruct (decide (k < length cs)%nat) as [Hk | Hk].
  - rewrite drawn_lookup by exact Hk.
    destruct (lookup_lt_is_Some_2 cs k Hk) as [c Hc]. rewrite Hc. f_equal.
    assert (Hin : c ∈ token_alphabet).
    { apply (proj1 (Forall_forall _ _) Hcs). eapply list_elem_of_lookup_2, Hc. }
    destruct (index_of_nth c token_alphabet "000"%char Hin) as [Hlt Hnth].
    rewrite token_alphabet_length in Hlt.
    cbn [randbelow host_with_draws Nat.add].
    rewrite (nth_lookup_Some _ _ 0%nat (index_of c token_alphabet));
      [|now rewrite list_lookup_fmap, Hc].
    rewrite Nat.mod_small by exact Hlt. exact Hnth.
  - rewrite (proj2 (lookup_ge_None cs k)) by lia.
    apply lookup_ge_None. rewrite drawn_length. lia.
Qed.

(** X10. Every string of 16 lowercase letters and digits is a token
    [generate_token] can return: there is an entropy stream whose first 16
    draws spell it. *)
Theorem every_token_can_be_generated (tok : string) (d : Database) :
  String.length tok = 16%nat ->
  Forall lower_or_digit (String.list_ascii_of_string tok) ->
  exists ds,
    length ds = 16%nat /\
    Forall (fun i => (i < 36)%nat) ds /\
    (@generate_token (host_with_draws ds) (mk_world d)).1 = Return tok.
Proof.
  intros Hlen Hchars.
  set (cs := String.list_ascii_of_string tok) in *.
  assert (Hcs : Forall (fun c => c ∈ token_alphabet) cs).
  { eapply Forall_impl; [exact Hchars|]. intros c. apply lower_or_digit_alphabet. }
  assert (Hn : length cs = 16%nat).
  { rewrite <- Hlen. subst cs. symmetry.
    rewrite <- (String.string_of_list_ascii_of_string tok) at 1.
    apply join_chars_length. }
  exists ((fun c => index_of c token_alphabet) <$> cs).
  split; [now rewrite length_fmap|]. split.
  - apply Forall_fmap. eapply Forall_impl; [exact Hcs|]. intros c Hc. cbn.
    rewrite <- token_alphabet_length. now apply index_of_nth.
  - rewrite generate_token_draws. cbn [fst mk_world entropy_cursor]. f_equal.
    rewrite <- Hn, drawn_with_draws by exact Hcs.
    subst cs. apply String.string_of_list_ascii_of_string.
Qed.

Lemma every_token_can_be_generated_witness :
  exists ds,
    length ds = 16%nat /\
    Forall (fun i => (i < 36)%nat) ds /\
    (@generate_token (host_with_draws ds) (mk_world sample_db)).1
      = Return "review0123456789".
Proof.
  apply (every_token_can_be_generated "review0123456789" sample_db).
  - reflexivity.
  - unfold lower_or_digit. repeat (constructor; [vm_compute; lia|]). constructor.
Defined.

(** ** Reviewers still to respond *)

(** X11. When every response row carries the review of the reviewer row
    it points at, [get_non_responding_reviewers] returns exactly the
    reviewers of the review, other than the submitter's, that no response
    listed by [get_responses] for the same review points at. *)
Theorem non_responding_iff_no_listed_response (d : Database) (self : Review)
    (r : Reviewer) :
  responses_follow_reviewers d ->
  (r ∈ BaseReview_get_non_responding_reviewers d self <->
   r ∈ review_reviewers d self /\
   ~ reviewer_of_user (submitter self) r /\
   ~ exists response, response ∈ BaseReview_get_responses d self /\ response_of r response).
Proof.
  intros Hcons. unfold BaseReview_get_non_responding_reviewers.
  rewrite exclude_user_spec, list_elem_of_filter.
  assert (Hlisted : forall response,
            response ∈ BaseReview_get_responses d self <->
            response ∈ responses d /\
            review_pk (reviewer_review (response_reviewer response)) = review_pk self).
  { intros response. unfold BaseReview_get_responses.
    rewrite merge_sort_Permutation, list_elem_of_filter. tauto. }
  split.
  - intros [[Hnone Hr] Hns]. split; [exact Hr|]. split; [exact Hns|].
    intros (response & Hin & Hof). apply Hlisted in Hin as [Hin _].
    exact (proj1 (Forall_forall _ _) Hnone response Hin Hof).
  - intros (Hr & Hns & Hnone). split; [|exact Hns]. split; [|exact Hr].
    apply Forall_forall. intros response Hin Hof. apply Hnone.
    exists response. split; [|exact Hof]. apply Hlisted. split; [exact Hin|].
    unfold review_reviewers in Hr. apply list_elem_of_filter in Hr as [Hpk Hr].
    rewrite <- Hpk.
    pose proof (proj1 (Forall_forall _ _) Hcons response Hin) as Hrow.
    exact (proj1 (Forall_forall _ _) Hrow r Hr Hof).
Qed.

Lemma non_responding_iff_no_listed_response_witness :
  responses_follow_reviewers db_one_response /\
  reviewer_external ∈ BaseReview_get_non_responding_reviewers db_one_response sample_review /\
  (reviewer_external ∈ BaseReview_get_non_responding_reviewers db_one_response sample_review <->
   reviewer_external ∈ review_reviewers db_one_response sample_review /\
   ~ reviewer_of_user (submitter sample_review) reviewer_external /\
   ~ exists response,
       response ∈ BaseReview_get_responses db_one_response sample_review /\
       response_of reviewer_external response).
Proof.
  assert (Hcons : responses_follow_reviewers db_one_response).
  { unfold responses_follow_reviewers. cbn.
    repeat (constructor; [repeat (constructor; [cbn; intros; try reflexivity; try contradiction; try lia|]); constructor|]).
    constructor. }
  split; [exact Hcons|]. split.
  - vm_compute. apply list_elem_of_here.
  - exact (non_responding_iff_no_listed_response db_one_response sample_review
             reviewer_external Hcons).
Defined.

(** ** The page report and the stored order of reviews *)

Lemma foldl_insert_lookup_absent (rows : list (Z * option datetime))
    (m0 : gmap Z (option datetime)) (k : Z) :
  k ∉ rows.*1 ->
  foldl (fun m row => <[row.1 := row.2]> m) m0 rows !! k = m0 !! k.
Proof.
  revert m0. induction rows as [|[k' v'] rows IH]; intros m0 Hk; [reflexivity|].
  cbn [foldl]. cbn in Hk. apply not_elem_of_cons in Hk as [Hne Hk].
  rewrite IH by exact Hk. cbn. now apply lookup_insert_ne.
Qed.

Lemma Case_absent (whens : list (Z * option datetime)) (pk : Z) :
  pk ∉ whens.*1 -> Case whens pk = None.
Proof.
  induction whens as [|[k v] rest IH]; intros Hk; [reflexivity|].
  cbn in Hk. apply not_elem_of_cons in Hk as [Hne Hk].
  cbn [Case]. rewrite bool_decide_eq_false_2 by exact Hne. now apply IH.
Qed.

(** X12. The annotation of a page is NULL exactly when no review is of
    that page: a key missing from [latest_reviews_map] falls through every
    [When] of the [Case]. *)
Theorem annotation_null_iff_no_review (d : Database) (p : Page) :
  (latest_reviews_map d !! page_pk p = None <->
     ~ exists r, r ∈ reviews d /\ revision_page_fk_relation r = page_pk p) /\
  (last_review_requested_at (annotate_last_review_requested_at d p) = None <->
     ~ exists r, r ∈ reviews d /\ revision_page_fk_relation r = page_pk p).
Proof.
  assert (Hno : (~ exists r, r ∈ reviews d /\ revision_page_fk_relation r = page_pk p) ->
                latest_reviews_map d !! page_pk p = None).
  { intros Hnone. unfold latest_reviews_map.
    rewrite foldl_insert_lookup_absent; [apply lookup_empty|].
    rewrite latest_reviews_keys. intros Hk. apply Hnone.
    now apply reviewed_page_ids_spec. }
  split; split.
  - intros Hm (r & Hr & Hfk).
    rewrite latest_reviews_map_lookup in Hm; [discriminate|].
    apply reviewed_page_ids_spec. now exists r.
  - exact Hno.
  - intros Hnull (r & Hr & Hfk).
    destruct (annotate_reviewed_page d p) as (t & Ht & _).
    { apply reviewed_page_ids_spec. now exists r. }
    congruence.
  - intros Hnone. cbn [annotate_last_review_requested_at last_review_requested_at].
    apply Case_absent. intros Hk.
    apply list_elem_of_fmap in Hk as ([k v] & Hkeq & Hkv). cbn in Hkeq. subst k.
    apply elem_of_map_to_list in Hkv. rewrite (Hno Hnone) in Hkv. discriminate.
Qed.

Lemma annotate_Permutation (d d' : Database) (p : Page) :
  reviews d ≡ₚ reviews d' ->
  page_pk p ∈ reviewed_page_ids d ->
  annotate_last_review_requested_at d p = annotate_last_review_requested_at d' p.
Proof.
  intros Hperm Hk.
  assert (Hk' : page_pk p ∈ reviewed_page_ids d').
  { apply reviewed_page_ids_spec in Hk as (r & Hr & Hfk).
    apply reviewed_page_ids_spec. exists r. now rewrite <- Hperm. }
  destruct (annotate_reviewed_page d p Hk) as (t & Ht & (r & Hr & Hfk & Hrt) & Hle).
  destruct (annotate_reviewed_page d' p Hk')
    as (t' & Ht' & (r' & Hr' & Hfk' & Hrt') & Hle').
  assert (Heq : t = t').
  { rewrite Hperm in Hr. rewrite <- Hperm in Hr'.
    specialize (Hle r' Hr' Hfk'). specialize (Hle' r Hr Hfk). lia. }
  unfold annotate_last_review_requested_at in *.
  cbn [last_review_requested_at] in *. now rewrite Ht, Ht', Heq.
Qed.

(** X13. The page report does not depend on the order in which the review
    table stores its rows: two databases whose review tables hold the same
    rows give the same list, row for row. *)
Theorem pages_with_reviews_ignores_stored_order `{Host} (d d' : Database) (user : User) :
  reviews d ≡ₚ reviews d' ->
  BaseReview_get_pages_with_reviews_for_user d user =
  BaseReview_get_pages_with_reviews_for_user d' user.
Proof.
  intros Hperm. unfold BaseReview_get_pages_with_reviews_for_user. cbv zeta.
  assert (Hids : forall k, k ∈ reviewed_page_ids d <-> k ∈ reviewed_page_ids d').
  { intros k. rewrite !reviewed_page_ids_spec.
    split; intros (r & Hr & Hfk); exists r; split; auto.
    - now rewrite <- Hperm.
    - now rewrite Hperm. }
  f_equal.
  rewrite (list_filter_iff (fun p => page_pk p ∈ reviewed_page_ids d)
             (fun p => page_pk p ∈ reviewed_page_ids d')) by (intros p; apply Hids).
  apply list_fmap_ext. intros i p Hp.
  apply list_elem_of_lookup_2, list_elem_of_filter in Hp as [Hk _].
  apply annotate_Permutation; [exact Hperm | now apply Hids].
Qed.

Lemma pages_with_reviews_ignores_stored_order_witness :
  @BaseReview_get_pages_with_reviews_for_user sample_host db_with_pages alice =
  @BaseReview_get_pages_with_reviews_for_user sample_host db_with_pages_reversed alice.
Proof.
  apply (@pages_with_reviews_ignores_stored_order sample_host db_with_pages
           db_with_pages_reversed alice).
  apply Permutation_rev.
Defined.

Lemma filter_Forall_nil {A} (P : A -> Prop) `{forall x, Decision (P x)} (l : list A) :
  Forall (fun x => ~ P x) l -> filter P l = [].
Proof.
  induction 1 as [|x l Hx _ IH]; [reflexivity|].
  now rewrite filter_cons_False by exact Hx.
Qed.

(** X14. The page report is empty when the review table is empty and when
    the user may edit no page, and it never has more rows than the user has
    editable pages. *)
Theorem pages_with_reviews_empty_cases `{Host} (d : Database) (user : User) :
  (reviews d = [] -> BaseReview_get_pages_with_reviews_for_user d user = []) /\
  (editable_pages user = [] -> BaseReview_get_pages_with_reviews_for_user d user = []) /\
  (length (BaseReview_get_pages_with_reviews_for_user d user)
     <= length (editable_pages user))%nat.
Proof.
  unfold BaseReview_get_pages_with_reviews_for_user. cbv zeta.
  split; [|split].
  - intros Hnone.
    assert (Hfilter : filter (fun p => page_pk p ∈ reviewed_page_ids d)
                        (editable_pages user) = []).
    { apply filter_Forall_nil, Forall_forall. intros p _ Hk.
      apply reviewed_page_ids_spec in Hk as (r & Hr & _).
      rewrite Hnone in Hr. now apply not_elem_of_nil in Hr. }
    now rewrite Hfilter.
  - intros Hnone. now rewrite Hnone.
  - rewrite merge_sort_Permutation, length_fmap. apply length_filter.
Qed.

(** ** Responses and annotations *)

(** X15. [get_responses] splits the response table by review: every
    response is listed for the review of its reviewer, and a response
    listed for two reviews means the two have the same key. The list has
    as many rows as the table has responses of that review. *)
Theorem get_responses_splits_by_review (d : Database) :
  (forall response, response ∈ responses d ->
     response ∈ BaseReview_get_responses d (reviewer_review (response_reviewer response))) /\
  (forall response r1 r2,
     response ∈ BaseReview_get_responses d r1 ->
     response ∈ BaseReview_get_responses d r2 ->
     review_pk r1 = review_pk r2) /\
  (forall self,
     length (BaseReview_get_responses d self) =
     length (filter (fun r => review_pk (reviewer_review (response_reviewer r))
                              = review_pk self) (responses d))).
Proof.
  unfold BaseReview_get_responses. split; [|split].
  - intros response Hin. rewrite merge_sort_Permutation. now apply list_elem_of_filter.
  - intros response r1 r2 H1 H2. rewrite merge_sort_Permutation in H1, H2.
    apply list_elem_of_filter in H1 as [H1 _], H2 as [H2 _]. congruence.
  - intros self. now rewrite merge_sort_Permutation.
Qed.

(** X16. The JSON of a range determines its anchor: two ranges serialise
    to the same object exactly when they agree on start, start offset, end
    and end offset; the annotation a range belongs to is not part of it. *)
Theorem AnnotationRange_as_json_data_inj (r1 r2 : AnnotationRange) :
  AnnotationRange_as_json_data r1 = AnnotationRange_as_json_data r2 <->
  range_start r1 = range_start r2 /\ start_offset r1 = start_offset r2 /\
  range_end r1 = range_end r2 /\ end_offset r1 = end_offset r2.
Proof.
  unfold AnnotationRange_as_json_data. split.
  - intros Heq. injection Heq as H1 H2 H3 H4. auto.
  - intros (-> & -> & -> & ->). reflexivity.
Qed.

(** X17. The JSON of an annotation does not carry the reviewer's secrets:
    it is the same for two annotations that agree on their own fields and
    on the key, user and email of their reviewer, whatever the response
    and view tokens (and the review) of the two reviewers are. *)
Theorem Annotation_as_json_data_hides_tokens `{Host} (d : Database) (a1 a2 : Annotation) :
  annotation_pk a1 = annotation_pk a2 ->
  quote a1 = quote a2 ->
  text a1 = text a2 ->
  annotation_created_at a1 = annotation_created_at a2 ->
  updated_at a1 = updated_at a2 ->
  reviewer_pk (annotation_reviewer a1) = reviewer_pk (annotation_reviewer a2) ->
  reviewer_user (annotation_reviewer a1) = reviewer_user (annotation_reviewer a2) ->
  reviewer_email (annotation_reviewer a1) = reviewer_email (annotation_reviewer a2) ->
  Annotation_as_json_data d a1 = Annotation_as_json_data d a2.
Proof.
  intros Hpk Hq Ht Hc Hu Hrpk Hruser Hremail.
  unfold Annotation_as_json_data, annotation_ranges_all, Reviewer_get_name.
  now rewrite Hpk, Hq, Ht, Hc, Hu, Hrpk, Hruser, Hremail.
Qed.

Lemma Annotation_as_json_data_hides_tokens_witness :
  @Annotation_as_json_data sample_host sample_db (sample_annotation reviewer_bob) =
  @Annotation_as_json_data sample_host sample_db (sample_annotation reviewer_bob_retokened).
Proof.
  apply (@Annotation_as_json_data_hides_tokens sample_host sample_db
           (sample_annotation reviewer_bob) (sample_annotation reviewer_bob_retokened));
    reflexivity.
Defined.

(** ** Links and repeated saves *)

(** X18. The two links of a reviewer are separate capabilities: the view
    link is built from the key and the view token alone, so it is the same
    whatever the response token is, and the respond link from the key and
    the response token alone. *)
Theorem reviewer_links_use_their_own_token `{Host} (r1 r2 : Reviewer) (absolute : bool) :
  reviewer_pk r1 = reviewer_pk r2 ->
  (view_token r1 = view_token r2 ->
     Reviewer_get_view_url r1 absolute = Reviewer_get_view_url r2 absolute) /\
  (response_token r1 = response_token r2 ->
     Reviewer_get_respond_url r1 absolute = Reviewer_get_respond_url r2 absolute).
Proof.
  intros Hpk. unfold Reviewer_get_view_url, Reviewer_get_respond_url.
  split; intros Htok; now rewrite Hpk, Htok.
Qed.

Lemma reviewer_links_use_their_own_token_witness :
  response_token reviewer_bob <> response_token reviewer_bob_new_response /\
  @Reviewer_get_view_url sample_host reviewer_bob true =
  @Reviewer_get_view_url sample_host reviewer_bob_new_response true.
Proof.
  split; [discriminate|].
  exact (proj1 (@reviewer_links_use_their_own_token sample_host reviewer_bob
                  reviewer_bob_new_response true eq_refl) eq_refl).
Defined.

Lemma with_tokens_same (self : Reviewer) :
  with_tokens self (response_token self) (view_token self) = self.
Proof. now destruct self. Qed.

(** X19. Saving again what a save returned changes nothing of it: the
    second save returns the very same reviewer, key and tokens included,
    draws nothing and sends nothing. *)
Theorem Reviewer_save_twice_returns_same `{Host} (self : Reviewer) (w : World) :
  exists self' w',
    Reviewer_save self w = (Return self', w') /\
    forall w1, exists w1',
      Reviewer_save self' w1 = (Return self', w1') /\
      entropy_cursor w1' = entropy_cursor w1 /\
      outbox w1' = outbox w1 /\
      self' ∈ reviewers (db w1').
Proof.
  destruct (Reviewer_save_returns self w) as (self' & w' & Hsave & Hrt & Hvt & _).
  exists self', w'. split; [exact Hsave|]. intros w1.
  assert (Hr' : truthy (response_token self') = true).
  { rewrite Hrt. destruct (truthy (response_token self)) eqn:Ht; [exact Ht|].
    apply join_chars_truthy. intros Hnil.
    pose proof (drawn_length (entropy_cursor w) 16) as Hl. rewrite Hnil in Hl.
    discriminate. }
  assert (Hv' : truthy (view_token self') = true).
  { rewrite Hvt. destruct (truthy (view_token self)) eqn:Ht; [exact Ht|].
    apply join_chars_truthy. intros Hnil.
    match type of Hnil with drawn ?i _ = _ =>
      pose proof (drawn_length i 16) as Hl end.
    rewrite Hnil in Hl. discriminate. }
  assert (Hpk : is_Some (reviewer_pk self')).
  { destruct (Reviewer_save_as_Model_save self w) as (rt & vt & n & Hm).
    destruct (Model_save_stores (with_tokens self rt vt) (after_draws n w))
      as (s2 & w2 & Hm2 & _ & Hsome & _).
    rewrite Hm, Hm2 in Hsave. injection Hsave as <- _. exact Hsome. }
  destruct Hpk as [pk Hpk].
  assert (Hagain : Reviewer_save self' w1 = Model_save self' w1).
  { unfold Reviewer_save. rewrite Hr', Hv'. simpl negb. cbv iota.
    unfold bind, ret. now rewrite with_tokens_same. }
  rewrite Hagain.
  destruct (Model_save_stores self' w1) as (s3 & w3 & Hm3 & Hin & _).
  destruct (Model_save_returns self' w1) as (s4 & w4 & Hm4 & _ & _ & Hc & _ & Ho).
  rewrite Hm3 in Hm4. injection Hm4 as <- <-.
  assert (Hs3 : s3 = self').
  { unfold Model_save in Hm3. rewrite Hpk in Hm3.
    destruct (existsb _ _); now injection Hm3 as <- _. }
  subst s3. exists w3. auto.
Qed.

(** ** What no operation undoes *)

Lemma continues_refl (w : World) : continues w w.
Proof. unfold continues. repeat split; auto. Qed.

Lemma continues_trans (w1 w2 w3 : World) :
  continues w1 w2 -> continues w2 w3 -> continues w1 w3.
Proof.
  unfold continues. intros (Ho & Hr & Hl & Hresp & Ha & Hc) (Ho' & Hr' & Hl' & Hresp' & Ha' & Hc').
  repeat split; try (etrans; eassumption); try congruence; lia.
Qed.

Lemma continues_with_outbox (w : World) (ms : list Mail) :
  continues w (with_outbox w (outbox w ++ ms)).
Proof.
  unfold continues, with_outbox; cbn. repeat split; auto.
  now apply prefix_app_r.
Qed.

Lemma perform_continues `{Host} (o : operation) (w : World) : continues w (perform o w).
Proof.
  destruct o as [revision by_user now | self | self | self | self]; cbn [perform].
  - unfold Review_create, continues, set_reviews; cbn. repeat split; auto.
    now apply prefix_app_r.
  - destruct (Reviewer_save_as_Model_save self w) as (rt & vt & n & Hsave).
    rewrite Hsave.
    destruct (Model_save_stores (with_tokens self rt vt) (after_draws n w))
      as (s1 & w1 & Hm & _ & _ & _ & Hlen).
    destruct (Model_save_returns (with_tokens self rt vt) (after_draws n w))
      as (s2 & w2 & Hm2 & _ & _ & Hc & Hr & Ho).
    destruct (Model_save_frame (with_tokens self rt vt) (after_draws n w))
      as (s3 & w3 & Hm3 & _ & _ & _ & _ & _ & Ha & Hresp & _).
    rewrite Hm in Hm2, Hm3. injection Hm2 as <- <-. injection Hm3 as _ <-.
    rewrite Hm. cbn [snd]. cbn [after_draws db entropy_cursor outbox] in *.
    unfold continues. rewrite Ho, Hr, Hc, Ha, Hresp.
    repeat split; auto; lia.
  - unfold BaseReview_send_request_emails.
    destruct (for_each_send_request_email_world
                (exclude_user (submitter self) (review_reviewers (db w) self)) w)
      as (n & ms & Hw & _).
    rewrite Hw. apply continues_with_outbox.
  - destruct (Reviewer_get_email_address self) as [a|e] eqn:Ha.
    + rewrite (send_request_email_returns self a w Ha). apply continues_with_outbox.
    + rewrite (send_request_email_raises self e w Ha). apply continues_refl.
  - unfold Response_send_notification_to_submitter.
    destruct (truthy _); [|apply continues_refl].
    unfold send_mail. cbn [snd].
    match goal with |- continues _ {| db := _; entropy_cursor := _; outbox := _ ++ ?ms |} =>
      exact (continues_with_outbox w ms) end.
Qed.

(** X20. No operation of this module takes anything back: after any
    sequence of them the messages handed to the transport before are still
    the first messages of the outbox, the reviews stored before are still
    the first rows of the review table, the reviewer table has at least as
    many rows, the response and range tables are as they were, and the
    entropy stream has not been rewound. *)
Theorem perform_all_continues `{Host} (ops : list operation) (w : World) :
  outbox w `prefix_of` outbox (perform_all ops w) /\
  reviews (db w) `prefix_of` reviews (db (perform_all ops w)) /\
  (length (reviewers (db w)) <= length (reviewers (db (perform_all ops w))))%nat /\
  responses (db (perform_all ops w)) = responses (db w) /\
  annotation_ranges (db (perform_all ops w)) = annotation_ranges (db w) /\
  (entropy_cursor w <= entropy_cursor (perform_all ops w))%nat.
Proof.
  change (continues w (perform_all ops w)).
  unfold perform_all. revert w. induction ops as [|o ops IH]; intros w.
  - apply continues_refl.
  - cbn [foldl]. eapply continues_trans; [apply perform_continues | apply IH].
Qed.

Example review_close_sample :
  let w := @apply_events sample_host
             [EvClose 1;
              EvOperation (OpReviewCreate {| revision_pk := 102; object_id := 11 |} bob 40);
              EvClose 2; EvClose 7]
             (mk_world sample_db) in
  (review_status w 1, review_status w 2, review_status w 3, review_status w 7)
  = (Some "closed", Some "closed", Some "open", None).
Proof. vm_compute. reflexivity. Qed.
